(** * auto_bot.py: price fetcher, formatter, scheduler and chat handlers

    A shallow embedding of [auto_bot.py].  Python's mutable globals
    ([last_prices], [responses]), the file [prices.json], the console and the
    messages handed to the chat platform form an explicit [world]; what the
    outside answers during one call (the wall clock, the HTTP request, the file
    write) is an [env].  Exceptions are values of a small state-and-error
    monad in which a mutation made before a [Raise] stays made, as in Python.

    Number model: a Python [float] is a binary64 value of the standard
    library's [SpecFloat], with its signed zeros, infinities and NaN;
    [round(x, 2)] and the [,.2f] format work on the exact value of the double,
    ties to even, and [round] returns the double nearest to the decimal it
    finds.  [last_prices] holds floats, the only values the script ever
    stores in it.  Strings are byte strings (UTF-8).

    The clock of an [env] is local time in Asia/Bangkok, as
    [datetime.datetime.now(ZoneInfo("Asia/Bangkok"))] reads it. *)

From Stdlib Require Import QArith Qround Qabs Qpower Lqa Ascii String.
From Stdlib Require Import Floats.SpecFloat.
From stdpp Require Import gmap strings list pretty.

Close Scope Q_scope.
Local Open Scope string_scope.

(** ** Exceptions and the monad *)

Inductive exn_class : Set :=
  | KeyError | TypeError | ValueError | OverflowError | AttributeError
  | OSError | RequestException | JSONDecodeError | TelegramError.

Record exn : Set := Exn { exn_cls : exn_class; exn_str : string }.

Inductive result (A : Type) : Type :=
  | Ok (a : A)
  | Raise (e : exn).
Arguments Ok {A} a.
Arguments Raise {A} e.

(** A computation over a mutable state [S]: the state is returned on both
    outcomes. *)
Definition M (S A : Type) : Type := S → result A * S.

Global Instance M_ret {S} : MRet (M S) := λ A a s, (Ok a, s).

Global Instance M_bind {S} : MBind (M S) := λ A B f m s,
  match m s with
  | (Ok a, s') => f a s'
  | (Raise e, s') => (Raise e, s')
  end.

Definition raise {S A} (e : exn) : M S A := λ s, (Raise e, s).

(** [try: m except Exception as e: h e] *)
Definition try_except {S A} (m : M S A) (h : exn → M S A) : M S A := λ s,
  match m s with
  | (Ok a, s') => (Ok a, s')
  | (Raise e, s') => h e s'
  end.

Definition gets {S A} (f : S → A) : M S A := λ s, (Ok (f s), s).
Definition modify {S} (f : S → S) : M S unit := λ s, (Ok tt, f s).

Definition lift_result {S A} (r : result A) : M S A := λ s, (r, s).

(** [for x in l: body x] *)
Fixpoint for_each {S X} (l : list X) (body : X → M S unit) : M S unit :=
  match l with
  | [] => mret tt
  | x :: l' => body x ;; for_each l' body
  end.

(** ** Python dicts whose iteration order matters

    A [dict] keeps its keys in insertion order; assigning to a key that is
    present replaces the value in place. *)

Fixpoint dict_get {V} (d : list (string * V)) (k : string) : option V :=
  match d with
  | [] => None
  | (k', v) :: d' => if decide (k' = k) then Some v else dict_get d' k
  end.

Fixpoint dict_set {V} (d : list (string * V)) (k : string) (v : V)
  : list (string * V) :=
  match d with
  | [] => [(k, v)]
  | (k', v') :: d' =>
      if decide (k' = k) then (k, v) :: d' else (k', v') :: dict_set d' k v
  end.

(** ** Numbers: binary64 *)

Abbreviation double := spec_float.

Definition prec : Z := 53.
Definition emax : Z := 1024.

Global Instance double_eq_dec : EqDecision double.
Proof. solve_decision. Defined.

(** The double nearest to an integer, ties to even; an infinity when the
    integer is out of range. *)
Definition double_of_int (n : Z) : double := binary_normalize prec emax n 0 false.

(** The double nearest to [n / d], for [n] and [d] below [2 ^ 53] in
    magnitude: the correctly rounded quotient of two exact doubles. *)
Definition nearest_double (n d : Z) : double :=
  SFdiv prec emax (double_of_int n) (double_of_int d).

(** [x < y] on floats; false when either is NaN. *)
Definition float_ltb (x y : double) : bool := SFltb x y.

(** [x == y] on floats. *)
Definition float_eqb (x y : double) : bool := SFeqb x y.

(** The exact value of the finite double with mantissa [m] and exponent
    [e]. *)
Definition exact (m : positive) (e : Z) : Q := (inject_Z (Zpos m) * 2 ^ e)%Q.

(** Nearest integer, ties to even. *)
Definition round_half_even (x : Q) : Z :=
  let f := Qfloor x in
  match (x - inject_Z f ?= 1 # 2)%Q with
  | Lt => f
  | Gt => (f + 1)%Z
  | Eq => if Z.even f then f else (f + 1)%Z
  end.

(** [round(x, 2)]: the number of hundredths nearest to the exact value, ties
    to even, then the double nearest to that decimal, with the sign of [x].
    From [2 ^ 53] hundredths on, that double is [x] itself; zeros, infinities
    and NaN round to themselves. *)
Definition round2 (x : double) : double :=
  match x with
  | S754_finite s m e =>
      let cents := round_half_even (exact m e * 100)%Q in
      if (cents =? 0)%Z then S754_zero s
      else if (cents <? 2 ^ 53)%Z
           then nearest_double (if s then - cents else cents)%Z 100
           else x
  | _ => x
  end.

(** ** JSON values, as [resp.json()] returns them *)

Unset Elimination Schemes.
Inductive json : Type :=
  | JNull
  | JBool (b : bool)
  | JInt (n : Z)
  | JFloat (x : double)
  | JStr (s : string)
  | JArr (l : list json)
  | JObj (kvs : list (string * json)).
Set Elimination Schemes.

(** [v[k]] with a string key [k] *)
Definition subscript (v : json) (k : string) : result json :=
  match v with
  | JObj kvs =>
      match dict_get kvs k with
      | Some x => Ok x
      | None => Raise (Exn KeyError k)
      end
  | _ => Raise (Exn TypeError "bad subscript")
  end.

(** ** Dates and times *)

Record date : Set := Date { year : N; month : N; day : N }.

Record datetime : Set :=
  DateTime { dt_date : date; hour : N; minute : N; second : N }.

Global Instance date_eq_dec : EqDecision date.
Proof. solve_decision. Defined.

Global Instance date_countable : Countable date.
Proof.
  apply (inj_countable' (λ d, (year d, month d, day d))
                        (λ t, Date t.1.1 t.1.2 t.2)).
  by intros [].
Defined.

(** ** The world *)

Inductive indicator : Set := Up | Down | Flat | Unknown.

Global Instance indicator_eq_dec : EqDecision indicator.
Proof. solve_decision. Defined.

(** A snapshot: symbol to (price or [None], movement indicator), in
    insertion order. *)
Abbreviation snapshot := (list (string * (option double * indicator))).

Record outgoing : Type :=
  Outgoing { out_chat : Z; out_text : string; out_parse_mode : option string }.

Inductive file_state : Type :=
  | FileJson (m : gmap string double)   (* holds a dumped price map *)
  | FilePartial.                   (* truncated by a write that failed *)

Record world : Type := World {
  last_prices : gmap string double;
  responses : list (string * string);
  prices_file : file_state;
  stdout : list string;
  outbox : list outgoing
}.

Inductive http_result : Type :=
  | RequestFails (e : exn)           (* [requests.get] raises *)
  | Response (body : result json).   (* what [resp.json()] gives or raises *)

Inductive write_outcome : Type :=
  | WriteOk
  | OpenFails (e : exn)     (* [open] raises, the file is untouched *)
  | DumpFails (e : exn).    (* [json.dump] raises after [open] truncated it *)

(** [chat] is what the chat platform answers to the one message a call may
    hand to it: [None] when it takes the message, the exception otherwise. *)
Record env : Type := Env {
  clock : datetime;
  http : http_result;
  disk : write_outcome;
  chat : option exn
}.

Definition set_last_prices (lp : gmap string double) (w : world) : world :=
  World lp (responses w) (prices_file w) (stdout w) (outbox w).
Definition set_prices_file (f : file_state) (w : world) : world :=
  World (last_prices w) (responses w) f (stdout w) (outbox w).
Definition set_stdout (o : list string) (w : world) : world :=
  World (last_prices w) (responses w) (prices_file w) o (outbox w).
Definition set_outbox (o : list outgoing) (w : world) : world :=
  World (last_prices w) (responses w) (prices_file w) (stdout w) o.

Definition print (line : string) : M world unit :=
  modify (λ w, set_stdout (stdout w ++ [line]) w).

(** [await bot.send_message(...)], [await message.reply_text(...)] *)
Definition send (e : env) (m : outgoing) : M world unit :=
  match chat e with
  | None => modify (λ w, set_outbox (outbox w ++ [m]) w)
  | Some ex => raise ex
  end.

Definition TICKERS : list (string * string) :=
  [("BTC", "bitcoin"); ("ETH", "ethereum"); ("BNB", "binancecoin");
   ("SOL", "solana"); ("XAU", "tether-gold")].

(** ** Strings *)

(** [needle in hay] *)
Fixpoint contains (needle hay : string) : bool :=
  String.prefix needle hay
  || match hay with
     | "" => false
     | String _ hay' => contains needle hay'
     end.

(** [s.replace(old, new)] for a non-empty [old]: occurrences are replaced
    from the left and do not overlap; [skip] counts the characters of a
    replaced occurrence still to be dropped. *)
Fixpoint replace_from (old new s : string) (skip : nat) : string :=
  match s with
  | "" => ""
  | String c s' =>
      match skip with
      | S k => replace_from old new s' k
      | O =>
          if String.prefix old s
          then new ++ replace_from old new s' (String.length old - 1)
          else String c (replace_from old new s' 0)
      end
  end.

Definition str_replace (s old new : string) : string := replace_from old new s 0.

(** ** What the chat platform delivers *)

Record message : Type := Message { msg_chat : Z; msg_text : option string }.

Record user : Type := User { user_id : Z; full_name : string }.

Inductive status : Set :=
  | creator | administrator | member | restricted | left | kicked.

Global Instance status_eq_dec : EqDecision status.
Proof. solve_decision. Defined.

Record chat_member_updated : Type := ChatMemberUpdated {
  cm_chat : Z;
  old_status : status;
  new_status : status;
  new_user : user
}.

Record update : Type := Update {
  upd_message : option message;
  upd_chat_member : option chat_member_updated
}.

(** ** Files read at start-up and on reload *)

(** What opening a file for reading and [json.load] can meet: no file, a
    file that cannot be read, text that is not JSON, or a JSON object. *)
Inductive disk_file (A : Type) : Type :=
  | Absent
  | Unreadable (e : exn)
  | Garbled
  | Holds (a : A).
Arguments Absent {A}.
Arguments Unreadable {A} e.
Arguments Garbled {A}.
Arguments Holds {A} a.

Inductive read_error : Type :=
  | FileNotFound
  | NotJson
  | OtherError (e : exn).

(** [with open(path, "r", encoding="utf-8") as f: return json.load(f)] *)
Definition json_load {A} (f : disk_file A) : read_error + A :=
  match f with
  | Absent => inl FileNotFound
  | Unreadable e => inl (OtherError e)
  | Garbled => inl NotJson
  | Holds a => inr a
  end.

(** [except (FileNotFoundError, json.JSONDecodeError): return {}] *)
Definition load_last_prices (f : disk_file (gmap string double))
  : result (gmap string double) :=
  match json_load f with
  | inr prices => Ok prices
  | inl FileNotFound | inl NotJson => Ok ∅
  | inl (OtherError e) => Raise e
  end.

(** [except FileNotFoundError: return {}]; text that is not JSON is not
    caught. *)
Definition load_responses (f : disk_file (list (string * string)))
  : result (list (string * string)) :=
  match json_load f with
  | inr table => Ok table
  | inl FileNotFound => Ok []
  | inl NotJson => Raise (Exn JSONDecodeError "Expecting value")
  | inl (OtherError e) => Raise e
  end.

(** What a later read of [prices.json] meets, given what the writes left. *)
Definition on_disk (f : file_state) : disk_file (gmap string double) :=
  match f with
  | FileJson m => Holds m
  | FilePartial => Garbled
  end.

Definition set_responses (table : list (string * string)) (w : world) : world :=
  World (last_prices w) table (prices_file w) (stdout w) (outbox w).

Section Bot.

(** Library functions and configuration the script relies on: [float] applied
    to a [str], [str.lower], the integer in [GROUP_ID], [User.mention_html]. *)
Variable float_of_str : string → option double.
Variable str_lower : string → string.
Variable GROUP_ID : Z.
Variable mention_html : user → string.

(** [float(v)] *)
Definition float (v : json) : result double :=
  match v with
  | JInt n =>
      match double_of_int n with
      | S754_infinity _ => Raise (Exn OverflowError "int too large")
      | x => Ok x
      end
  | JFloat x => Ok x
  | JBool b => Ok (if b then double_of_int 1 else S754_zero false)
  | JStr s =>
      match float_of_str s with
      | Some q => Ok q
      | None => Raise (Exn ValueError s)
      end
  | _ => Raise (Exn TypeError "float() argument")
  end.

(** ** Load / save prices *)

(** [with open(PRICES_FILE, "w") as f: json.dump(prices, f, indent=4)] *)
Definition write_prices_file (e : env) (prices : gmap string double)
  : M world unit :=
  match disk e with
  | WriteOk => modify (set_prices_file (FileJson prices))
  | OpenFails ex => raise ex
  | DumpFails ex => modify (set_prices_file FilePartial) ;; raise ex
  end.

Definition save_last_prices (e : env) (prices : gmap string double)
  : M world unit :=
  try_except (write_prices_file e prices)
    (λ ex, print ("Error saving prices.json: " ++ exn_str ex)).

(** ** Fetch live market prices *)

(** The frame of one call of [get_market_prices]: the globals and the local
    dict [prices]. *)
Record frame : Type := Frame { globals : world; prices : snapshot }.

Definition with_globals {A} (m : M world A) : M frame A := λ fr,
  let '(r, w) := m (globals fr) in (r, Frame w (prices fr)).

(** [prices[name] = entry] *)
Definition set_price (name : string) (entry : option double * indicator)
  : M frame unit :=
  modify (λ fr, Frame (globals fr) (dict_set (prices fr) name entry)).

(** [last_prices[name] = p] *)
Definition store_last_price (name : string) (p : double) : M frame unit :=
  with_globals (modify (λ w, set_last_prices (<[name := p]> (last_prices w)) w)).

Definition requests_get (e : env) : M frame (result json) :=
  match http e with
  | RequestFails ex => raise ex
  | Response body => mret body
  end.

(** [resp.json()] *)
Definition resp_json (body : result json) : M frame json := lift_result body.

(** The body of [for name, coin_id in TICKERS.items()]. *)
Definition ticker_body (data : json) (t : string * string) : M frame unit :=
  let '(name, coin_id) := t in
  try_except
    (quote ← lift_result (subscript data coin_id);
     usd ← lift_result (subscript quote "usd");
     x ← lift_result (float usd);
     let current_price := round2 x in
     lp ← gets (λ fr, last_prices (globals fr));
     let arrow :=
       match lp !! name with
       | Some last =>
           if float_ltb last current_price then Up
           else if float_ltb current_price last then Down
           else Flat
       | None => Flat
       end in
     store_last_price name current_price ;;
     set_price name (Some current_price, arrow))
    (λ _, set_price name (None, Unknown)).

Definition get_market_prices_frame (e : env) : M frame snapshot :=
  try_except
    (body ← requests_get e;
     data ← resp_json body;
     for_each TICKERS (ticker_body data))
    (λ ex,
       with_globals (print ("Error fetching CoinGecko data: " ++ exn_str ex)) ;;
       for_each TICKERS.*1 (λ name, set_price name (None, Unknown))) ;;
  lp ← gets (λ fr, last_prices (globals fr));
  with_globals (save_last_prices e lp) ;;
  gets prices.

Definition get_market_prices (e : env) : M world snapshot := λ w,
  let '(r, fr) := get_market_prices_frame e (Frame w []) in (r, globals fr).

(** ** Format message with Bangkok time *)

Definition NL : string := String "010"%char "".

Fixpoint zeros (n : nat) : string :=
  match n with
  | O => ""
  | S n' => String "0"%char (zeros n')
  end.

(** Zero padding on the left, as [%02d] does. *)
Definition zero_pad (width : nat) (s : string) : string :=
  zeros (width - String.length s) ++ s.

(** [now.strftime("%Y-%m-%d %H:%M:%S")] *)
Definition strftime (now : datetime) : string :=
  let d := dt_date now in
  zero_pad 4 (pretty (year d)) ++ "-" ++ zero_pad 2 (pretty (month d)) ++ "-"
  ++ zero_pad 2 (pretty (day d)) ++ " " ++ zero_pad 2 (pretty (hour now)) ++ ":"
  ++ zero_pad 2 (pretty (minute now)) ++ ":" ++ zero_pad 2 (pretty (second now)).

(** Commas between groups of three digits; the digits come least
    significant first, [n] counts those already in the current group. *)
Fixpoint group3 (rev_digits : list ascii) (n : nat) : list ascii :=
  match rev_digits with
  | [] => []
  | d :: ds =>
      match n with
      | 3%nat => ","%char :: d :: group3 ds 1
      | _ => d :: group3 ds (S n)
      end
  end.

Definition thousands (digits : string) : string :=
  string_of_list_ascii
    (rev (group3 (rev (list_ascii_of_string digits)) 0)).

Definition sign_text (s : bool) : string := if s then "-" else "".

(** [f"{price:,.2f}"]: the hundredths nearest to the exact value, ties to
    even, with the sign of the float. *)
Definition format_price (price : double) : string :=
  match price with
  | S754_nan => "nan"
  | S754_infinity s => sign_text s ++ "inf"
  | S754_zero s => sign_text s ++ "0.00"
  | S754_finite s m e =>
      let cents := round_half_even (exact m e * 100)%Q in
      sign_text s ++ thousands (pretty (Z.to_N (cents / 100)))
      ++ "." ++ zero_pad 2 (pretty (Z.to_N (cents mod 100)))
  end.

(** The four strings the fetcher stores as [arrow]. *)
Definition arrow_glyph (a : indicator) : string :=
  match a with
  | Up => " 🔼"
  | Down => " 🔽"
  | Flat => " ➡️"
  | Unknown => " ❓"
  end.

Definition coin_symbol (coin : string) : string :=
  if decide (coin = "BTC") then "💰"
  else if decide (coin = "ETH") then "💎"
  else if decide (coin = "BNB") then "🟡"
  else if decide (coin = "SOL") then "🟣"
  else "🏅".

Definition price_line (item : string * (option double * indicator)) : string :=
  let '(coin, (price, arrow)) := item in
  match price with
  | Some p =>
      coin_symbol coin ++ " " ++ coin ++ "/USD: $" ++ format_price p
      ++ arrow_glyph arrow ++ NL
  | None => "⚠️ " ++ coin ++ "/USD: N/A" ++ arrow_glyph arrow ++ NL
  end.

Definition default_title : string := "💹 Live Market Prices".

Definition format_market_message (e : env) (prices : snapshot) (title : string)
  : M world string :=
  let now := clock e in
  let timestamp := strftime now in
  let message := title ++ " (" ++ timestamp ++ "):" ++ NL ++ NL in
  let message := foldl (λ message item, message ++ price_line item) message prices in
  mret (message ++ NL ++ "💰 One trade is enough to change your life 💸").

(** ** Scheduled updates (Bangkok time) *)

Definition send_market_update (e : env) : M world unit :=
  prices ← get_market_prices e;
  message ← format_market_message e prices "📊 Market Update";
  send e (Outgoing GROUP_ID message None).

Abbreviation sched_key := (date * N * N)%type.

(** The state of [schedule_updates].  [sent_log] is a ghost field: it lists,
    in order, the keys for which [send_market_update] was awaited. *)
Record sched_state : Type := SchedState {
  sent_today : gset sched_key;
  sent_log : list sched_key;
  sched_world : world
}.

Definition with_world {A} (m : M world A) : M sched_state A := λ st,
  let '(r, w) := m (sched_world st) in
  (r, SchedState (sent_today st) (sent_log st) w).

Definition log_send (key : sched_key) : M sched_state unit :=
  modify (λ st, SchedState (sent_today st) (sent_log st ++ [key]) (sched_world st)).

Definition sent_today_add (key : sched_key) : M sched_state unit :=
  modify (λ st, SchedState (sent_today st ∪ {[key]}) (sent_log st) (sched_world st)).

Definition sent_today_clear : M sched_state unit :=
  modify (λ st, SchedState ∅ (sent_log st) (sched_world st)).

Definition target_times : list (N * N) := [(9, 0); (12, 0); (19, 0)]%N.

(** One iteration reads the clock ([tick_now]); [tick_env] is what the
    outside answers to a broadcast made in this iteration. *)
Record tick : Type := Tick { tick_now : datetime; tick_env : env }.

Definition target_body (t : tick) (target : N * N) : M sched_state unit :=
  let now := tick_now t in
  let '(hour_, minute_) := target in
  if decide (hour now = hour_ ∧ minute now = minute_) then
    let key := (dt_date now, hour_, minute_) in
    sent ← gets sent_today;
    if decide (key ∈ sent) then mret tt
    else
      log_send key ;;
      with_world (send_market_update (tick_env t)) ;;
      sent_today_add key
  else mret tt.

(** The body of [while True]; the 30 second sleep separates two ticks. *)
Definition tick_body (t : tick) : M sched_state unit :=
  let now := tick_now t in
  for_each target_times (target_body t) ;;
  if decide (hour now = 0%N ∧ minute now = 0%N) then sent_today_clear
  else mret tt.

(** The loop run over the clock readings of its first iterations. *)
Definition schedule_updates (ticks : list tick) : M sched_state unit :=
  for_each ticks tick_body.

Definition sched_init (w : world) : sched_state := SchedState ∅ [] w.

(** ** Handlers *)

(** [update.message.reply_text(text)] *)
Definition reply_text (e : env) (u : update) (text : string) : M world unit :=
  match upd_message u with
  | Some m => send e (Outgoing (msg_chat m) text None)
  | None => raise (Exn AttributeError "reply_text")
  end.

Definition handle_price_request (e : env) (u : update) : M world unit :=
  prices ← get_market_prices e;
  message ← format_market_message e prices default_title;
  reply_text e u message.

(** [for keyword, reply in responses.items()], with its [continue] and
    [return]. *)
Fixpoint reply_loop (e : env) (u : update) (msg : string)
    (items : list (string * string)) : M world unit :=
  match items with
  | [] => mret tt
  | (keyword, reply) :: rest =>
      if String.prefix "_" keyword then reply_loop e u msg rest
      else if contains keyword msg then reply_text e u reply
      else reply_loop e u msg rest
  end.

Definition auto_reply (e : env) (u : update) : M world unit :=
  match upd_message u with
  | None => mret tt
  | Some m =>
      match msg_text m with
      | None | Some "" => mret tt
      | Some text =>
          let msg := str_lower text in
          if contains "price" msg || String.prefix "/price" msg
          then handle_price_request e u
          else
            items ← gets responses;
            reply_loop e u msg items
      end
  end.

(** [responses.get(key, default)] *)
Definition responses_get (key fallback : string) : M world string :=
  gets (λ w, default fallback (dict_get (responses w) key)).

Definition welcome (e : env) (u : update) : M world unit :=
  match upd_chat_member u with
  | None => raise (Exn AttributeError "new_chat_member")
  | Some result =>
      let new_status_ := new_status result in
      let old_status_ := old_status result in
      if (bool_decide (old_status_ = left) || bool_decide (old_status_ = kicked))
         && bool_decide (new_status_ = member)
      then
        let new_user_ := new_user result in
        welcome_message ← responses_get "_welcome" "👋 Welcome {name}!";
        let welcome_message :=
          str_replace welcome_message "{name}" (mention_html new_user_) in
        send e (Outgoing (cm_chat result) welcome_message (Some "HTML"))
      else mret tt
  end.

(** ** Reload *)

(** [responses_file] is what [responses.json] holds when the command runs. *)
Definition reload_responses (responses_file : disk_file (list (string * string)))
    (e : env) (u : update) : M world unit :=
  table ← lift_result (load_responses responses_file);
  modify (set_responses table) ;;
  text ← responses_get "_reload_success" "Reloaded!";
  reply_text e u text.

(** ** Notions used by the statements *)

(** [float(data[coin_id]["usd"])] as one expression. *)
Definition quote_usd (data : json) (coin_id : string) : result double :=
  match subscript data coin_id with
  | Ok quote =>
      match subscript quote "usd" with
      | Ok usd => float usd
      | Raise ex => Raise ex
      end
  | Raise ex => Raise ex
  end.

Definition quote_opt (data : json) (coin_id : string) : option double :=
  match quote_usd data coin_id with
  | Ok x => Some x
  | Raise _ => None
  end.

(** The price a fetch parses for a coin id, if any. *)
Definition parsed_price (e : env) (coin_id : string) : option double :=
  match http e with
  | Response (Ok data) => quote_opt data coin_id
  | _ => None
  end.

(** The indicator for a new price against the stored one. *)
Definition movement (old : option double) (new : double) : indicator :=
  match old with
  | Some last =>
      if float_ltb last new then Up else if float_ltb new last then Down else Flat
  | None => Flat
  end.

(** What one iteration of the fetch loop does to the frame. *)
Definition ticker_step (data : json) (fr : frame) (t : string * string) : frame :=
  match quote_usd data t.2 with
  | Ok x =>
      let w := globals fr in
      Frame (set_last_prices (<[t.1 := round2 x]> (last_prices w)) w)
            (dict_set (prices fr) t.1
               (Some (round2 x), movement (last_prices w !! t.1) (round2 x)))
  | Raise _ => Frame (globals fr) (dict_set (prices fr) t.1 (None, Unknown))
  end.

(** The snapshot entry and the stored price a symbol ends with. *)
Definition entry_of (old parsed : option double) : option double * indicator :=
  match parsed with
  | Some x => (Some (round2 x), movement old (round2 x))
  | None => (None, Unknown)
  end.

Definition stored_of (old parsed : option double) : option double :=
  match parsed with
  | Some x => Some (round2 x)
  | None => old
  end.

(** The console lines of one fetch. *)
Definition fetch_error_lines (e : env) : list string :=
  match http e with
  | RequestFails ex | Response (Raise ex) =>
      ["Error fetching CoinGecko data: " ++ exn_str ex]
  | Response (Ok _) => []
  end.

Definition save_error_lines (e : env) : list string :=
  match disk e with
  | WriteOk => []
  | OpenFails ex | DumpFails ex => ["Error saving prices.json: " ++ exn_str ex]
  end.

Definition file_after (e : env) (lp : gmap string double) (f : file_state)
  : file_state :=
  match disk e with
  | WriteOk => FileJson lp
  | OpenFails _ => f
  | DumpFails _ => FilePartial
  end.

(** The payload the fetch loop sees; a failed request behaves as a payload
    in which no price parses. *)
Definition payload (e : env) : json :=
  match http e with
  | Response (Ok data) => data
  | _ => JNull
  end.

(** The frame when the fetch loop is over. *)
Definition fetched (e : env) (w : world) : frame :=
  foldl (ticker_step (payload e))
    (Frame (set_stdout (stdout w ++ fetch_error_lines e) w) []) TICKERS.

(** The movement rule as the specification words it: every indicator,
    [Flat] included, is decided by comparing with a stored price, and flat
    means equal. *)
Definition movement_as_stated (e : env) (w : world) (name coin_id : string)
  : Prop :=
  ∃ snap w' price ind,
    get_market_prices e w = (Ok snap, w')
    ∧ dict_get snap name = Some (price, ind)
    ∧ (ind = Up ↔ ∃ x o, parsed_price e coin_id = Some x
                          ∧ last_prices w !! name = Some o
                          ∧ float_ltb o (round2 x) = true)
    ∧ (ind = Down ↔ ∃ x o, parsed_price e coin_id = Some x
                            ∧ last_prices w !! name = Some o
                            ∧ float_ltb (round2 x) o = true)
    ∧ (ind = Flat ↔ ∃ x o, parsed_price e coin_id = Some x
                            ∧ last_prices w !! name = Some o
                            ∧ float_eqb (round2 x) o = true)
    ∧ (ind = Unknown ↔ parsed_price e coin_id = None).

(** [k] is the integer nearest to [q], the even one of the two at a tie. *)
Definition nearest_even_integer (q : Q) (k : Z) : Prop :=
  (Qabs (q - inject_Z k) < 1 # 2)%Q
  ∨ ((Qabs (q - inject_Z k) == 1 # 2)%Q ∧ Z.even k = true).

(** [r] is [x] rounded to 2 decimal places: for a finite [x], the float of
    the decimal whose number of hundredths is the integer nearest to a
    hundred times the magnitude of [x], with the sign of [x]; a zero, an
    infinity or NaN is its own rounding. *)
Definition rounded_to_cents (x r : double) : Prop :=
  match x with
  | S754_finite s m e =>
      ∃ cents : Z,
        nearest_even_integer (exact m e * 100)%Q cents
        ∧ ((cents = 0%Z ∧ r = S754_zero s)
           ∨ (cents ≠ 0%Z ∧ (cents < 2 ^ 53)%Z
              ∧ r = nearest_double (if s then - cents else cents)%Z 100)
           ∨ ((2 ^ 53 ≤ cents)%Z ∧ r = x))
  | _ => r = x
  end.

(** The number a float stands for, when it stands for one. *)
Definition has_value (x : double) (q : Q) : Prop :=
  match x with
  | S754_zero _ => (q == 0)%Q
  | S754_finite s m e => (q == if s then - exact m e else exact m e)%Q
  | _ => False
  end.

(** The request itself failed: [requests.get] raised, or the body is not
    JSON. *)
Definition request_failed (e : env) : Prop :=
  match http e with
  | RequestFails _ | Response (Raise _) => True
  | Response (Ok _) => False
  end.

(** No symbol of the ticker set has a price that parses. *)
Definition no_price_parses (e : env) : Prop :=
  ∀ name coin_id, (name, coin_id) ∈ TICKERS → parsed_price e coin_id = None.

Definition unavailable_snapshot : snapshot :=
  (λ name, (name, (None, Unknown))) <$> TICKERS.*1.

(** The part of the scheduler state the dedup logic works on. *)
Definition sched_view (st : sched_state) : gset sched_key * list sched_key :=
  (sent_today st, sent_log st).

Definition target_step (now : datetime) (v : gset sched_key * list sched_key)
    (target : N * N) : gset sched_key * list sched_key :=
  if decide (hour now = target.1 ∧ minute now = target.2) then
    let key := (dt_date now, target.1, target.2) in
    if decide (key ∈ v.1) then v else (v.1 ∪ {[key]}, (v.2 ++ [key])%list)
  else v.

Definition tick_step (v : gset sched_key * list sched_key) (now : datetime)
  : gset sched_key * list sched_key :=
  let v' := foldl (target_step now) v target_times in
  if decide (hour now = 0%N ∧ minute now = 0%N) then (∅, v'.2) else v'.

Definition run_view (v : gset sched_key * list sched_key) (ticks : list tick)
  : gset sched_key * list sched_key :=
  foldl tick_step v (tick_now <$> ticks).

(** Clock readings are compared field by field, most significant first. *)
Definition lex (c1 c2 : comparison) : comparison :=
  match c1 with
  | Eq => c2
  | _ => c1
  end.

Definition date_compare (a b : date) : comparison :=
  lex (year a ?= year b)%N (lex (month a ?= month b)%N (day a ?= day b)%N).

Definition dt_compare (a b : datetime) : comparison :=
  lex (date_compare (dt_date a) (dt_date b))
    (lex (hour a ?= hour b)%N
       (lex (minute a ?= minute b)%N (second a ?= second b)%N)).

Definition date_lt (a b : date) : Prop := date_compare a b = Lt.
Definition dt_le (a b : datetime) : Prop := dt_compare a b ≠ Gt.

(** The clock never goes back between two iterations. *)
Fixpoint chronological (ticks : list tick) : Prop :=
  match ticks with
  | [] => True
  | t :: rest =>
      Forall (λ t', dt_le (tick_now t) (tick_now t')) rest ∧ chronological rest
  end.

(** A key is not later than a clock reading, to the minute. *)
Definition key_le (k : sched_key) (now : datetime) : Prop :=
  date_lt k.1.1 (dt_date now)
  ∨ (k.1.1 = dt_date now
     ∧ (k.1.2 < hour now ∨ (k.1.2 = hour now ∧ k.2 ≤ minute now))%N).

(** What holds of the dedup set and the log before each iteration, [rest]
    being the iterations to come: the log has no duplicate; a key of the set
    is a target and not later than any reading to come; a logged key is still
    in the set or belongs to a date before every reading to come. *)
Definition sched_inv (v : gset sched_key * list sched_key) (rest : list tick)
  : Prop :=
  NoDup v.2
  ∧ (∀ k, k ∈ v.1 →
       (k.1.2, k.2) ∈ target_times ∧ Forall (λ t, key_le k (tick_now t)) rest)
  ∧ (∀ k, k ∈ v.2 →
       k ∈ v.1 ∨ Forall (λ t, date_lt k.1.1 (dt_date (tick_now t))) rest).

(** The key an iteration at a target time works with. *)
Definition key_of (now : datetime) : sched_key :=
  (dt_date now, hour now, minute now).

Definition is_substring (needle hay : string) : Prop :=
  ∃ before after, hay = before ++ needle ++ after.

Definition starts_with (s p : string) : Prop := ∃ rest, s = p ++ rest.

(** A reserved key begins with an underscore. *)
Definition reserved (keyword : string) : Prop := starts_with keyword "_".

(** [(keyword, reply)] is the first entry, in stored order, whose key is not
    reserved and occurs in [msg]. *)
Definition first_match (items : list (string * string)) (msg : string)
    (keyword reply : string) : Prop :=
  ∃ before after,
    items = (before ++ (keyword, reply) :: after)%list
    ∧ ¬ reserved keyword
    ∧ is_substring keyword msg
    ∧ ∀ k r, (k, r) ∈ before → reserved k ∨ ¬ is_substring k msg.

Definition no_match (items : list (string * string)) (msg : string) : Prop :=
  ∀ k r, (k, r) ∈ items → reserved k ∨ ¬ is_substring k msg.

(** The lines of a snapshot, one after the other. *)
Definition lines (items : snapshot) : string :=
  foldr (λ item acc, price_line item ++ acc) "" items.

(** An ASCII capital letter. *)
Definition is_upper (c : ascii) : bool :=
  let n := N_of_ascii c in (65 <=? n)%N && (n <=? 90)%N.

(** The template [welcome] fills in. *)
Definition welcome_template (w : world) : string :=
  default "👋 Welcome {name}!" (dict_get (responses w) "_welcome").

(** [old] occurs in [s] between [a] and [b], and nowhere further left. *)
Definition first_occurrence (old s a b : string) : Prop :=
  s = a ++ old ++ b
  ∧ ∀ a' b', s = a' ++ old ++ b' → (String.length a ≤ String.length a')%nat.

(** [r] is [s] with the occurrences of [old], taken from the left and not
    overlapping, each replaced by [new]. *)
Inductive replaced (old new : string) : string → string → Prop :=
  | replaced_none s : ¬ is_substring old s → replaced old new s s
  | replaced_first s a b r :
      first_occurrence old s a b → replaced old new b r →
      replaced old new s (a ++ new ++ r).

(** What every message of a scheduled broadcast looks like. *)
Definition group_update (m : outgoing) : Prop :=
  out_chat m = GROUP_ID ∧ out_parse_mode m = None
  ∧ starts_with (out_text m) "📊 Market Update (".

(** [out] is what handing [m] to the chat platform gives from world [w]:
    the message joins the outbox, or the exception of the platform is raised
    and nothing changes. *)
Definition sends (e : env) (m : outgoing) (w : world)
    (out : result unit * world) : Prop :=
  match chat e with
  | None => out = (Ok tt, set_outbox (outbox w ++ [m]) w)
  | Some ex => out = (Raise ex, w)
  end.

(** The number of awaited calls that raised: none, or the last one. *)
Definition raised (r : result unit) : nat :=
  match r with
  | Ok _ => 0
  | Raise _ => 1
  end.

(** From [st] to [st'] the outbox grows by scheduled broadcasts only, one
    for each call logged, but for the call that raised. *)
Definition sched_step (r : result unit) (st st' : sched_state) : Prop :=
  ∃ msgs,
    outbox (sched_world st') = (outbox (sched_world st) ++ msgs)%list
    ∧ Forall group_update msgs
    ∧ length (sent_log st')
      = (length (sent_log st) + length msgs + raised r)%nat.

(** What an iteration at a target time does when its key is not in the sent
    set: the call is logged and awaited, and the key joins the set only when
    the call returns. *)
Definition broadcast_step (t : tick) (st : sched_state)
  : result unit * sched_state :=
  let key := key_of (tick_now t) in
  match send_market_update (tick_env t) (sched_world st) with
  | (Ok _, w') =>
      (Ok tt, SchedState (sent_today st ∪ {[key]}) (sent_log st ++ [key]) w')
  | (Raise ex, w') =>
      (Raise ex, SchedState (sent_today st) (sent_log st ++ [key]) w')
  end.

(** The claim on duplicates as it is stated, for every run: no key is
    logged twice. *)
Definition one_broadcast_as_stated (ticks : list tick) (w : world) : Prop :=
  ∃ r st',
    schedule_updates ticks (sched_init w) = (r, st') ∧ NoDup (sent_log st').

(** ** Sample inputs *)

Definition ascii_lower (c : ascii) : ascii :=
  let n := N_of_ascii c in
  if (65 <=? n)%N && (n <=? 90)%N then ascii_of_N (n + 32) else c.

(** [str.lower] on ASCII text. *)
Fixpoint lower_ascii (s : string) : string :=
  match s with
  | "" => ""
  | String c s' => String (ascii_lower c) (lower_ascii s')
  end.

(** A reading of [float] on [str] that accepts nothing; the sample payloads
    carry numbers. *)
Definition float_of_no_str (s : string) : option double := None.

(** The float a decimal literal with numerator [n] over [d] denotes. *)
Definition lit (n d : Z) : double := nearest_double n d.

Definition sample_mention (u : user) : string := "@" ++ full_name u.

Definition day1 : date := Date 2024 3 5.
Definition day2 : date := Date 2024 3 6.

Definition full_payload : json :=
  JObj [("bitcoin", JObj [("usd", JFloat (lit 650005 10))]);
        ("ethereum", JObj [("usd", JFloat (lit 3400129 1000))]);
        ("binancecoin", JObj [("usd", JInt 590)]);
        ("solana", JObj [("usd", JFloat (lit 150255 1000))]);
        ("tether-gold", JObj [("usd", JFloat (lit 230025 100))])].

(** The same payload without the entry of ethereum. *)
Definition payload_without_eth : json :=
  JObj [("bitcoin", JObj [("usd", JFloat (lit 650005 10))]);
        ("binancecoin", JObj [("usd", JInt 590)]);
        ("solana", JObj [("usd", JFloat (lit 150255 1000))]);
        ("tether-gold", JObj [("usd", JFloat (lit 230025 100))])].

Definition e_full : env :=
  Env (DateTime day1 9 0 7) (Response (Ok full_payload)) WriteOk None.

Definition e_without_eth : env :=
  Env (DateTime day1 9 0 7) (Response (Ok payload_without_eth)) WriteOk None.

Definition e_offline : env :=
  Env (DateTime day1 9 0 7)
    (RequestFails (Exn RequestException "Connection timed out"))
    (OpenFails (Exn OSError "Read-only file system")) None.

(** The quotes arrive but the chat platform refuses the message. *)
Definition e_refused : env :=
  Env (DateTime day1 9 0 7) (Response (Ok full_payload)) WriteOk
    (Some (Exn TelegramError "Timed out")).

Definition sample_responses : list (string * string) :=
  [("deposit", "How to deposit..."); ("_welcome", "...")].

(** A first run: nothing stored yet. *)
Definition w_first : world :=
  World ∅ sample_responses (FileJson ∅) [] [].

Definition w_seen : world :=
  World {[ "BTC" := double_of_int 64000; "ETH" := double_of_int 3500 ]}
    sample_responses
    (FileJson {[ "BTC" := double_of_int 64000; "ETH" := double_of_int 3500 ]})
    [] [].

Definition at_time (d : date) (h m sec : N) : tick :=
  Tick (DateTime d h m sec) e_full.

(** Two ticks in the 09:00 minute of one day, then the next morning. *)
Definition before_nine : list tick :=
  [at_time day1 8 59 40; at_time day1 9 0 10; at_time day1 9 0 40;
   at_time day1 12 0 5; at_time day1 23 59 50; at_time day2 0 0 20;
   at_time day2 8 59 50].

Definition nine_on_day2 : tick := at_time day2 9 0 20.

Definition two_days : list tick := (before_nine ++ [nine_on_day2])%list.

Definition sample_group : Z := (-1001234567890)%Z.

Definition btc_snapshot : snapshot :=
  [("BTC", (Some (lit 650005 10), Up)); ("ETH", (None, Unknown))].

Definition deposit_question : update :=
  Update (Some (Message 5 (Some "How do I deposit funds"))) None.

Definition welcome_as_text : update :=
  Update (Some (Message 5 (Some "_welcome"))) None.

Definition new_table : list (string * string) :=
  [("withdraw", "Withdrawal guide"); ("_reload_success", "Table reloaded")].

Definition reload_command : update :=
  Update (Some (Message 5 (Some "/reload"))) None.

Definition withdraw_question : update :=
  Update (Some (Message 5 (Some "How to WITHDRAW?"))) None.

Definition ann_joins : chat_member_updated :=
  ChatMemberUpdated 5 left member (User 1 "Ann").

(** A clock that is set back past midnight after the 09:00 broadcast. *)
Definition clock_set_back : list tick :=
  [at_time day1 9 0 10; at_time day1 0 0 20; at_time day1 9 0 5].

(** A payload with a NaN quote and an integer too large for a float. *)
Definition odd_payload : json :=
  JObj [("bitcoin", JObj [("usd", JFloat S754_nan)]);
        ("ethereum", JObj [("usd", JInt (10 ^ 400))])].

Definition e_odd : env :=
  Env (DateTime day1 9 0 7) (Response (Ok odd_payload)) WriteOk None.

(** The 09:00 broadcast is refused; the loop would go on at 12:00. *)
Definition refused_at_nine : list tick :=
  [Tick (DateTime day1 9 0 10) e_refused; at_time day1 12 0 5].

(** ** The fetcher, step by step *)

Lemma dict_get_set_eq {V} (d : list (string * V)) k v :
  dict_get (dict_set d k v) k = Some v.
Proof.
  induction d as [|[k' v'] d IH]; simpl.
  - by rewrite decide_True.
  - destruct (decide (k' = k)) as [->|Hne]; simpl.
    + by rewrite decide_True.
    + by rewrite decide_False.
Qed.

Lemma dict_get_set_ne {V} (d : list (string * V)) k k' v :
  k ≠ k' → dict_get (dict_set d k v) k' = dict_get d k'.
Proof.
  intros Hne. induction d as [|[k0 v0] d IH]; simpl.
  - by rewrite decide_False.
  - destruct (decide (k0 = k)) as [->|Hk]; simpl.
    + by rewrite !decide_False.
    + destruct (decide (k0 = k')); [done | apply IH].
Qed.

Lemma dict_set_keys_new {V} (d : list (string * V)) k v :
  k ∉ d.*1 → (dict_set d k v).*1 = (d.*1 ++ [k])%list.
Proof.
  induction d as [|[k0 v0] d IH]; simpl; [done|].
  rewrite not_elem_of_cons. intros [Hne Hnin].
  rewrite decide_False by done. simpl. f_equal. by apply IH.
Qed.

Lemma ticker_body_run data t fr :
  ticker_body data t fr = (Ok tt, ticker_step data fr t).
Proof.
  destruct t as [name coin_id]. destruct fr as [w ps].
  unfold ticker_body, ticker_step, quote_usd, try_except. simpl.
  unfold mbind, M_bind, lift_result. simpl.
  destruct (subscript data coin_id) as [quote|ex]; [|done].
  destruct (subscript quote "usd") as [usd|ex]; [|done].
  destruct (float usd) as [x|ex]; done.
Qed.

Lemma fetch_loop_run data ts fr :
  for_each ts (ticker_body data) fr = (Ok tt, foldl (ticker_step data) fr ts).
Proof.
  revert fr. induction ts as [|t ts IH]; intros fr; simpl; [done|].
  unfold mbind, M_bind. rewrite ticker_body_run. apply IH.
Qed.

Lemma ticker_step_self data fr t :
  last_prices (globals (ticker_step data fr t)) !! t.1
    = stored_of (last_prices (globals fr) !! t.1) (quote_opt data t.2)
  ∧ dict_get (prices (ticker_step data fr t)) t.1
    = Some (entry_of (last_prices (globals fr) !! t.1) (quote_opt data t.2)).
Proof.
  unfold ticker_step, quote_opt.
  destruct (quote_usd data t.2) as [x|ex]; simpl.
  - by rewrite lookup_insert_eq, dict_get_set_eq.
  - by rewrite dict_get_set_eq.
Qed.

Lemma ticker_step_other data fr t n :
  n ≠ t.1 →
  last_prices (globals (ticker_step data fr t)) !! n
    = last_prices (globals fr) !! n
  ∧ dict_get (prices (ticker_step data fr t)) n = dict_get (prices fr) n.
Proof.
  intros Hne. unfold ticker_step.
  destruct (quote_usd data t.2) as [x|ex]; simpl.
  - by rewrite lookup_insert_ne, dict_get_set_ne.
  - by rewrite dict_get_set_ne.
Qed.

Lemma ticker_step_frame data fr t :
  let w := globals fr in
  let w' := globals (ticker_step data fr t) in
  responses w' = responses w ∧ prices_file w' = prices_file w
  ∧ stdout w' = stdout w ∧ outbox w' = outbox w.
Proof. unfold ticker_step. by destruct (quote_usd data t.2). Qed.

Lemma ticker_step_keys data fr t :
  t.1 ∉ (prices fr).*1 →
  (prices (ticker_step data fr t)).*1 = ((prices fr).*1 ++ [t.1])%list.
Proof.
  intros Hnin. unfold ticker_step.
  destruct (quote_usd data t.2); simpl; by apply dict_set_keys_new.
Qed.

Lemma fetch_fold_other data ts fr n :
  n ∉ ts.*1 →
  last_prices (globals (foldl (ticker_step data) fr ts)) !! n
    = last_prices (globals fr) !! n
  ∧ dict_get (prices (foldl (ticker_step data) fr ts)) n = dict_get (prices fr) n.
Proof.
  revert fr. induction ts as [|t ts IH]; intros fr; simpl; [done|].
  rewrite not_elem_of_cons. intros [Hne Hnin].
  destruct (IH (ticker_step data fr t) Hnin) as [-> ->].
  by apply ticker_step_other.
Qed.

Lemma fetch_fold_self data ts fr n c :
  NoDup ts.*1 → (n, c) ∈ ts →
  last_prices (globals (foldl (ticker_step data) fr ts)) !! n
    = stored_of (last_prices (globals fr) !! n) (quote_opt data c)
  ∧ dict_get (prices (foldl (ticker_step data) fr ts)) n
    = Some (entry_of (last_prices (globals fr) !! n) (quote_opt data c)).
Proof.
  revert fr. induction ts as [|t ts IH]; intros fr; simpl.
  - intros _ Hin. by apply elem_of_nil in Hin.
  - rewrite NoDup_cons, elem_of_cons. intros [Hfresh Hnd] [<-|Hin].
    + destruct (fetch_fold_other data ts (ticker_step data fr (n, c)) n Hfresh)
        as [-> ->].
      apply (ticker_step_self data fr (n, c)).
    + destruct (IH (ticker_step data fr t) Hnd Hin) as [-> ->].
      assert (n ≠ t.1) as Hne.
      { intros ->. apply Hfresh. by apply (list_elem_of_fmap_2 fst _ _ Hin). }
      by destruct (ticker_step_other data fr t n Hne) as [-> _].
Qed.

Lemma fetch_fold_frame data ts fr :
  let w := globals fr in
  let w' := globals (foldl (ticker_step data) fr ts) in
  responses w' = responses w ∧ prices_file w' = prices_file w
  ∧ stdout w' = stdout w ∧ outbox w' = outbox w.
Proof.
  revert fr. induction ts as [|t ts IH]; intros fr; simpl; [done|].
  destruct (IH (ticker_step data fr t)) as (-> & -> & -> & ->).
  apply ticker_step_frame.
Qed.

Lemma fetch_fold_keys data ts fr :
  NoDup ts.*1 → (∀ n, n ∈ ts.*1 → n ∉ (prices fr).*1) →
  (prices (foldl (ticker_step data) fr ts)).*1 = ((prices fr).*1 ++ ts.*1)%list.
Proof.
  revert fr. induction ts as [|t ts IH]; intros fr; simpl.
  - intros _ _. by rewrite app_nil_r.
  - rewrite NoDup_cons. intros [Hfresh Hnd] Hnew.
    assert ((prices (ticker_step data fr t)).*1 = ((prices fr).*1 ++ [t.1])%list)
      as Hk by (apply ticker_step_keys, Hnew; left).
    rewrite IH; [by rewrite Hk, <- app_assoc | done |].
    intros n Hn. rewrite Hk, elem_of_app, list_elem_of_singleton.
    intros [Hold | ->]; [|done].
    by apply (Hnew n); [right|].
Qed.

Lemma TICKERS_NoDup : NoDup TICKERS.*1.
Proof. compute_done. Qed.

Lemma quote_opt_payload e c : quote_opt (payload e) c = parsed_price e c.
Proof.
  unfold payload, parsed_price. by destruct (http e) as [ex|[data|ex]].
Qed.

Lemma unavailable_loop_run names fr :
  for_each names (λ name, set_price name (None, Unknown)) fr
  = (Ok tt, foldl (ticker_step JNull) fr ((λ n, (n, "")) <$> names)).
Proof.
  revert fr. induction names as [|n names IH]; intros fr; simpl; [done|].
  unfold mbind, M_bind. simpl. apply IH.
Qed.

Lemma save_last_prices_run e lp w :
  save_last_prices e lp w
  = (Ok tt,
     set_stdout (stdout w ++ save_error_lines e)
       (set_prices_file (file_after e lp (prices_file w)) w)).
Proof.
  unfold save_last_prices, write_prices_file, try_except, save_error_lines,
    file_after.
  destruct w as [lp0 rs f out ob].
  destruct (disk e) as [|ex|ex]; simpl;
    unfold set_stdout, set_prices_file; simpl; by rewrite ?app_nil_r.
Qed.

(** The [try] statement of [get_market_prices]. *)
Lemma fetch_try_run e w ps :
  try_except
    (body ← requests_get e;
     data ← resp_json body;
     for_each TICKERS (ticker_body data))
    (λ ex,
       with_globals (print ("Error fetching CoinGecko data: " ++ exn_str ex)) ;;
       for_each TICKERS.*1 (λ name, set_price name (None, Unknown)))
    (Frame w ps)
  = (Ok tt,
     foldl (ticker_step (payload e))
       (Frame (set_stdout (stdout w ++ fetch_error_lines e) w) ps) TICKERS).
Proof.
  assert (∀ fr, for_each TICKERS.*1 (λ name, set_price name (None, Unknown)) fr
                = (Ok tt, foldl (ticker_step JNull) fr TICKERS)) as Hfail.
  { intros fr. rewrite unavailable_loop_run. f_equal. }
  unfold try_except, requests_get, resp_json, payload, fetch_error_lines.
  unfold mbind at 1 2 3, M_bind.
  destruct (http e) as [ex|[data|ex]]; cbn [raise mret M_ret lift_result].
  - unfold mbind, M_bind, with_globals, print, modify. cbn [globals prices].
    apply Hfail.
  - rewrite fetch_loop_run. do 2 f_equal.
    destruct w; unfold set_stdout; simpl. by rewrite app_nil_r.
  - unfold mbind, M_bind, with_globals, print, modify. cbn [globals prices].
    apply Hfail.
Qed.

Lemma get_market_prices_unfold e w :
  get_market_prices e w
  = (Ok (prices (fetched e w)),
     let w1 := globals (fetched e w) in
     set_stdout (stdout w1 ++ save_error_lines e)
       (set_prices_file (file_after e (last_prices w1) (prices_file w1)) w1)).
Proof.
  unfold get_market_prices, get_market_prices_frame.
  unfold mbind at 1, M_bind. rewrite fetch_try_run. fold (fetched e w).
  unfold mbind, M_bind, gets, with_globals. cbn [globals prices fst snd].
  by rewrite save_last_prices_run.
Qed.

(** Everything the statements below need about one fetch. *)
Lemma get_market_prices_run e w :
  ∃ snap w',
    get_market_prices e w = (Ok snap, w')
    ∧ snap.*1 = TICKERS.*1
    ∧ (∀ n c, (n, c) ∈ TICKERS →
         dict_get snap n
           = Some (entry_of (last_prices w !! n) (parsed_price e c))
         ∧ last_prices w' !! n
           = stored_of (last_prices w !! n) (parsed_price e c))
    ∧ (∀ n, n ∉ TICKERS.*1 → last_prices w' !! n = last_prices w !! n)
    ∧ responses w' = responses w
    ∧ outbox w' = outbox w
    ∧ prices_file w' = file_after e (last_prices w') (prices_file w)
    ∧ stdout w' = (stdout w ++ fetch_error_lines e ++ save_error_lines e)%list.
Proof.
  eexists _, _. split; [apply get_market_prices_unfold|].
  unfold fetched.
  set (fr0 := Frame (set_stdout (stdout w ++ fetch_error_lines e) w) []).
  destruct (fetch_fold_frame (payload e) TICKERS fr0) as (Hr & Hf & Ho & Hb).
  cbn [last_prices responses prices_file stdout outbox set_stdout set_prices_file].
  split; [|split; [|split; [|split; [|split; [|split]]]]].
  - by rewrite fetch_fold_keys;
      [|apply TICKERS_NoDup|intros ? _; apply not_elem_of_nil].
  - intros n c Hin.
    destruct (fetch_fold_self (payload e) TICKERS fr0 n c TICKERS_NoDup Hin)
      as [-> ->]. by rewrite quote_opt_payload.
  - intros n Hn.
    by destruct (fetch_fold_other (payload e) TICKERS fr0 n Hn) as [-> _].
  - done.
  - done.
  - by rewrite Hf.
  - rewrite Ho. simpl. by rewrite <- app_assoc.
Qed.

Lemma SFcompare_antisym a b : SFcompare b a = CompOpp <$> SFcompare a b.
Proof.
  destruct a as [sa|sa| |sa ma ea], b as [sb|sb| |sb mb eb];
    try destruct sa; try destruct sb; try reflexivity;
    cbn [SFcompare fmap option_fmap option_map]; f_equal;
    rewrite (Z.compare_antisym ea eb);
    destruct (ea ?= eb)%Z; cbn [CompOpp]; try reflexivity;
    pose proof (Pos.compare_cont_antisym ma mb Eq) as Hanti;
    cbn [CompOpp] in Hanti; by rewrite <- Hanti, ?CompOpp_involutive.
Qed.

Lemma float_ltb_asym a b : float_ltb a b = true → float_ltb b a = false.
Proof.
  unfold float_ltb, SFltb. rewrite (SFcompare_antisym a b).
  by destruct (SFcompare a b) as [[]|].
Qed.

Lemma SFcompare_nan a b :
  SFcompare a b = None ↔ a = S754_nan ∨ b = S754_nan.
Proof.
  destruct a as [sa|sa| |sa ma ea], b as [sb|sb| |sb mb eb]; simpl;
    split; try done; try (intros [?|?]; done); auto.
Qed.

(** Neither less nor greater: equal, or one of the two is NaN. *)
Lemma float_neither a b :
  float_ltb a b = false ∧ float_ltb b a = false
  ↔ float_eqb a b = true ∨ a = S754_nan ∨ b = S754_nan.
Proof.
  rewrite <- SFcompare_nan.
  unfold float_ltb, float_eqb, SFltb, SFeqb. rewrite (SFcompare_antisym a b).
  destruct (SFcompare a b) as [[]|]; simpl;
    (split; [intros [? ?]; try done; auto | intros [?|?]; done]).
Qed.

Lemma float_ltb_irrefl a : float_ltb a a = false.
Proof.
  destruct (float_ltb a a) eqn:Hlt; [|done].
  by rewrite (float_ltb_asym a a Hlt) in Hlt.
Qed.

Lemma movement_up old new :
  movement old new = Up ↔ ∃ o, old = Some o ∧ float_ltb o new = true.
Proof.
  unfold movement. destruct old as [o|].
  - destruct (float_ltb o new) eqn:Hup.
    + split; [eauto|done].
    + split.
      * by destruct (float_ltb new o).
      * intros (o' & [= <-] & Hlt). congruence.
  - split; [done|]. by intros (o & ? & _).
Qed.

Lemma movement_down old new :
  movement old new = Down ↔ ∃ o, old = Some o ∧ float_ltb new o = true.
Proof.
  unfold movement. destruct old as [o|].
  - destruct (float_ltb o new) eqn:Hup.
    + split; [done|]. intros (o' & [= <-] & Hlt).
      apply float_ltb_asym in Hlt. congruence.
    + destruct (float_ltb new o) eqn:Hdown.
      * split; [eauto|done].
      * split; [done|]. intros (o' & [= <-] & Hlt). congruence.
  - split; [done|]. by intros (o & ? & _).
Qed.

Lemma movement_flat old new :
  movement old new = Flat
  ↔ old = None
    ∨ ∃ o, old = Some o
           ∧ (float_eqb new o = true ∨ new = S754_nan ∨ o = S754_nan).
Proof.
  unfold movement. destruct old as [o|].
  - pose proof (float_neither new o) as Hn. split.
    + intros Hflat. right. exists o. split; [done|]. apply Hn.
      by destruct (float_ltb o new), (float_ltb new o).
    + intros [?|(o' & [= <-] & Hcase)]; [done|].
      apply Hn in Hcase as [-> ->]. done.
  - split; [by left|done].
Qed.

Lemma movement_known old new : movement old new ≠ Unknown.
Proof.
  unfold movement. destruct old as [o|]; [|done].
  by destruct (float_ltb o new), (float_ltb new o).
Qed.

(** ** The fetcher: statements *)

Lemma round_half_even_spec q : nearest_even_integer q (round_half_even q).
Proof.
  unfold nearest_even_integer, round_half_even.
  pose proof (Qfloor_le q) as Hlo. pose proof (Qlt_floor q) as Hhi.
  rewrite inject_Z_plus in Hhi. change (inject_Z 1) with 1%Q in Hhi.
  destruct (q - inject_Z (Qfloor q) ?= 1 # 2)%Q eqn:Hc.
  - apply Qeq_alt in Hc.
    destruct (Z.even (Qfloor q)) eqn:Heven.
    + right. split; [|done]. revert Hlo Hhi Hc.
      generalize (inject_Z (Qfloor q)). intros f Hlo Hhi Hc.
      rewrite Qabs_pos; lra.
    + right. split.
      * rewrite inject_Z_plus. change (inject_Z 1) with 1%Q.
        revert Hlo Hhi Hc. generalize (inject_Z (Qfloor q)).
        intros f Hlo Hhi Hc. rewrite Qabs_neg; lra.
      * by rewrite Z.even_add, Heven.
  - apply Qlt_alt in Hc. left. apply Qabs_Qlt_condition.
    revert Hlo Hhi Hc. generalize (inject_Z (Qfloor q)). intros f Hlo Hhi Hc.
    split; lra.
  - apply Qgt_alt in Hc. left. rewrite inject_Z_plus.
    change (inject_Z 1) with 1%Q. apply Qabs_Qlt_condition.
    revert Hlo Hhi Hc. generalize (inject_Z (Qfloor q)). intros f Hlo Hhi Hc.
    split; lra.
Qed.

Lemma round2_spec x : rounded_to_cents x (round2 x).
Proof.
  destruct x as [s|s| |s m e]; try done. unfold rounded_to_cents, round2.
  exists (round_half_even (exact m e * 100)).
  split; [apply round_half_even_spec|].
  destruct (Z.eqb_spec (round_half_even (exact m e * 100)) 0) as [Hz|Hnz];
    [by left|right].
  destruct (Z.ltb_spec (round_half_even (exact m e * 100)) (2 ^ 53));
    [by left|by right].
Qed.

(** C1 (amended): the indicator recorded for a symbol is up iff a price was
    parsed and, rounded, it is strictly greater than the stored price, down
    iff a price was parsed and it is strictly less, flat iff a price was
    parsed and either no price was stored for the symbol or the rounded
    price is neither greater nor less than the stored one (the two are equal,
    or one of them is NaN), and unknown iff no price was parsed; with no
    stored price it is neither up nor down. *)
Theorem C1_movement_indicator e w name coin_id :
  (name, coin_id) ∈ TICKERS →
  ∃ snap w' price ind,
    get_market_prices e w = (Ok snap, w')
    ∧ dict_get snap name = Some (price, ind)
    ∧ (ind = Up ↔ ∃ x o, parsed_price e coin_id = Some x
                          ∧ last_prices w !! name = Some o
                          ∧ float_ltb o (round2 x) = true)
    ∧ (ind = Down ↔ ∃ x o, parsed_price e coin_id = Some x
                            ∧ last_prices w !! name = Some o
                            ∧ float_ltb (round2 x) o = true)
    ∧ (ind = Flat ↔ ∃ x, parsed_price e coin_id = Some x
                          ∧ (last_prices w !! name = None
                             ∨ ∃ o, last_prices w !! name = Some o
                                    ∧ (float_eqb (round2 x) o = true
                                       ∨ round2 x = S754_nan
                                       ∨ o = S754_nan)))
    ∧ (ind = Unknown ↔ parsed_price e coin_id = None)
    ∧ (last_prices w !! name = None → ind ≠ Up ∧ ind ≠ Down).
Proof.
  intros Hin.
  destruct (get_market_prices_run e w) as (snap & w' & Hrun & _ & Hent & _).
  destruct (Hent name coin_id Hin) as [Hget _].
  destruct (parsed_price e coin_id) as [x|]; simpl in Hget;
    exists snap, w'; eexists _, _; (split; [done|]); (split; [exact Hget|]).
  - rewrite movement_up, movement_down, movement_flat.
    pose proof (movement_known (last_prices w !! name) (round2 x)) as Hk.
    repeat split.
    + intros (o & Ho & Hlt). by exists x, o.
    + intros (x' & o & [= <-] & Ho & Hlt). by exists o.
    + intros (o & Ho & Hlt). by exists x, o.
    + intros (x' & o & [= <-] & Ho & Hlt). by exists o.
    + intros Hflat. by exists x.
    + by intros (x' & [= <-] & Hflat).
    + done.
    + done.
    + intros (o & Ho & _). congruence.
    + intros (o & Ho & _). congruence.
  - repeat split; try done.
    + by intros (x & o & ? & _).
    + by intros (x & o & ? & _).
    + by intros (x & ? & _).
Qed.

(** C3: for every symbol whose price parses in the response, the stored
    price after the fetch is the parsed value rounded to 2 decimals: what
    [round2] computes, which is the float of the decimal with the nearest
    number of hundredths. *)
Theorem C3_stored_price_is_rounded e w name coin_id x :
  (name, coin_id) ∈ TICKERS →
  parsed_price e coin_id = Some x →
  ∃ snap w' stored,
    get_market_prices e w = (Ok snap, w')
    ∧ last_prices w' !! name = Some stored
    ∧ stored = round2 x
    ∧ rounded_to_cents x stored.
Proof.
  intros Hin Hx.
  destruct (get_market_prices_run e w) as (snap & w' & Hrun & _ & Hent & _).
  exists snap, w', (round2 x). split; [done|].
  destruct (Hent name coin_id Hin) as [_ ->]. rewrite Hx.
  split; [done|]. split; [done|apply round2_spec].
Qed.

Lemma request_failed_no_price e : request_failed e → no_price_parses e.
Proof.
  unfold request_failed, no_price_parses, parsed_price.
  by destruct (http e) as [ex|[data|]].
Qed.

Lemma ticker_step_fail data fr t :
  quote_opt data t.2 = None →
  ticker_step data fr t
  = Frame (globals fr) (dict_set (prices fr) t.1 (None, Unknown)).
Proof.
  unfold quote_opt, ticker_step. by destruct (quote_usd data t.2).
Qed.

Lemma fetched_unavailable e w :
  no_price_parses e →
  fetched e w
  = Frame (set_stdout (stdout w ++ fetch_error_lines e) w) unavailable_snapshot.
Proof.
  intros Hnone.
  assert (∀ t, t ∈ TICKERS → quote_opt (payload e) t.2 = None) as Hq.
  { intros [n c] Hin. rewrite quote_opt_payload. by apply (Hnone n c). }
  unfold fetched. change TICKERS with
    [("BTC", "bitcoin"); ("ETH", "ethereum"); ("BNB", "binancecoin");
     ("SOL", "solana"); ("XAU", "tether-gold")] at 1.
  cbn [foldl].
  rewrite !ticker_step_fail by (apply Hq; compute_done).
  done.
Qed.

(** C4: when the request fails (network error, body that is not JSON) or no
    price of the payload parses, every symbol of the ticker set is in the
    returned snapshot with no price and the unknown indicator, the price map
    is unchanged and is written to disk; a failing write leaves an error line
    on the console and the call still returns normally. *)
Theorem C4_total_failure e w :
  request_failed e ∨ no_price_parses e →
  ∃ w',
    get_market_prices e w = (Ok unavailable_snapshot, w')
    ∧ last_prices w' = last_prices w
    ∧ match disk e with
      | WriteOk => prices_file w' = FileJson (last_prices w)
      | OpenFails ex | DumpFails ex =>
          last (stdout w') = Some ("Error saving prices.json: " ++ exn_str ex)
      end.
Proof.
  intros Hfail.
  assert (no_price_parses e) as Hnone.
  { destruct Hfail; [by apply request_failed_no_price | done]. }
  rewrite get_market_prices_unfold, (fetched_unavailable e w Hnone).
  eexists. split; [done|]. split; [done|].
  unfold file_after, save_error_lines.
  destruct (disk e) as [|ex|ex]; simpl; [done|..]; by rewrite last_snoc.
Qed.

(** C5: when one symbol fails to parse, its snapshot entry has no price and
    the unknown indicator, and every other symbol has the entry it has in a
    fetch that differs only on the failing symbol. *)
Theorem C5_partial_failure e e' w name coin_id :
  (name, coin_id) ∈ TICKERS →
  parsed_price e coin_id = None →
  (∀ n c, (n, c) ∈ TICKERS → n ≠ name → parsed_price e c = parsed_price e' c) →
  ∃ snap w1 snap' w1',
    get_market_prices e w = (Ok snap, w1)
    ∧ get_market_prices e' w = (Ok snap', w1')
    ∧ dict_get snap name = Some (None, Unknown)
    ∧ ∀ n c, (n, c) ∈ TICKERS → n ≠ name →
        is_Some (dict_get snap n) ∧ dict_get snap n = dict_get snap' n.
Proof.
  intros Hin Hnone Hsame.
  destruct (get_market_prices_run e w) as (snap & w1 & Hrun & _ & Hent & _).
  destruct (get_market_prices_run e' w) as (snap' & w1' & Hrun' & _ & Hent' & _).
  exists snap, w1, snap', w1'. split; [done|]. split; [done|]. split.
  - destruct (Hent name coin_id Hin) as [-> _]. by rewrite Hnone.
  - intros n c Hn Hne.
    destruct (Hent n c Hn) as [-> _], (Hent' n c Hn) as [-> _].
    split; [done|]. by rewrite (Hsame n c).
Qed.

(** C10: a symbol whose price fails to parse keeps its stored price, so the
    next fetch in which it parses is compared with that stored price. *)
Theorem C10_failed_symbol_keeps_price e w name coin_id :
  (name, coin_id) ∈ TICKERS →
  parsed_price e coin_id = None →
  ∃ snap w',
    get_market_prices e w = (Ok snap, w')
    ∧ last_prices w' !! name = last_prices w !! name
    ∧ ∀ e2 x, parsed_price e2 coin_id = Some x →
        ∃ snap2 w2,
          get_market_prices e2 w' = (Ok snap2, w2)
          ∧ dict_get snap2 name
            = Some (Some (round2 x),
                    movement (last_prices w !! name) (round2 x)).
Proof.
  intros Hin Hnone.
  destruct (get_market_prices_run e w) as (snap & w' & Hrun & _ & Hent & _).
  destruct (Hent name coin_id Hin) as [_ Hkeep].
  rewrite Hnone in Hkeep. simpl in Hkeep.
  exists snap, w'. repeat split; try done.
  intros e2 x Hx.
  destruct (get_market_prices_run e2 w') as (snap2 & w2 & Hrun2 & _ & Hent2 & _).
  exists snap2, w2. split; [done|].
  destruct (Hent2 name coin_id Hin) as [-> _]. by rewrite Hx, Hkeep.
Qed.

(** ** Strings: what the tests compute *)

Lemma str_app_cons c (s t : string) : String c s ++ t = String c (s ++ t).
Proof. reflexivity. Qed.

Lemma str_app_nil_l (t : string) : "" ++ t = t.
Proof. reflexivity. Qed.

Lemma str_app_assoc (s1 s2 s3 : string) : (s1 ++ s2) ++ s3 = s1 ++ (s2 ++ s3).
Proof.
  induction s1 as [|c s1 IH]; [done|]. rewrite !str_app_cons. by f_equal.
Qed.

Lemma str_app_nil_r (s : string) : s ++ "" = s.
Proof.
  induction s as [|c s IH]; [done|]. rewrite str_app_cons. by f_equal.
Qed.

Lemma prefix_spec p s : String.prefix p s = true ↔ starts_with s p.
Proof.
  unfold starts_with. revert s. induction p as [|a p IH]; intros s.
  - destruct s; simpl; split; eauto.
  - destruct s as [|b s]; simpl.
    + split; [done|]. by intros [rest ?].
    + destruct (ascii_dec a b) as [->|Hne].
      * rewrite IH. split; intros [rest Hrest]; exists rest.
        -- rewrite str_app_cons. by f_equal.
        -- rewrite str_app_cons in Hrest. congruence.
      * split; [done|]. intros [rest Hrest].
        rewrite str_app_cons in Hrest. congruence.
Qed.

Lemma contains_spec needle hay :
  contains needle hay = true ↔ is_substring needle hay.
Proof.
  unfold is_substring. split.
  - induction hay as [|c hay IH]; cbn [contains].
    + rewrite orb_false_r. intros [rest Hrest]%prefix_spec. by exists "", rest.
    + intros [[rest Hrest]%prefix_spec | Hin]%orb_true_iff.
      * by exists "", rest.
      * destruct (IH Hin) as (before & after & ->).
        by exists (String c before), after.
  - intros (before & after & ->).
    induction before as [|c before IH].
    + rewrite str_app_nil_l.
      assert (String.prefix needle (needle ++ after) = true) as Hp
        by (apply prefix_spec; by exists after).
      destruct (needle ++ after); cbn [contains]; by rewrite Hp.
    + rewrite str_app_cons. cbn [contains]. by rewrite IH, orb_true_r.
Qed.

Lemma contains_false needle hay :
  contains needle hay = false ↔ ¬ is_substring needle hay.
Proof. rewrite <- contains_spec. by destruct (contains needle hay). Qed.

Lemma replace_absent old new s :
  ¬ is_substring old s → replace_from old new s 0 = s.
Proof.
  induction s as [|c s IH]; intros Hnot; [done|]. cbn [replace_from].
  destruct (String.prefix old (String c s)) eqn:Hp.
  - exfalso. apply Hnot. apply prefix_spec in Hp as [rest ->].
    by exists "", rest.
  - f_equal. apply IH. intros (before & after & ->). apply Hnot.
    by exists (String c before), after.
Qed.

Lemma str_length_app (s t : string) :
  String.length (s ++ t) = (String.length s + String.length t)%nat.
Proof. induction s as [|c s IH]; [done|]. rewrite str_app_cons. simpl. by rewrite IH. Qed.

Lemma replace_skip old new x b :
  replace_from old new (x ++ b) (String.length x) = replace_from old new b 0.
Proof.
  induction x as [|c x IH]; [done|]. rewrite str_app_cons. by cbn [replace_from String.length].
Qed.

Lemma first_occurrence_exists old s :
  is_substring old s → ∃ a b, first_occurrence old s a b.
Proof.
  induction s as [|c s IH]; intros Hsub.
  - destruct Hsub as (a & b & Hs). exists a, b. split; [done|].
    intros a' b' Hs'. destruct a as [|? a]; [simpl; lia|by rewrite str_app_cons in Hs].
  - destruct (String.prefix old (String c s)) eqn:Hp.
    + apply prefix_spec in Hp as [rest Hrest]. exists "", rest.
      split; [by rewrite str_app_nil_l|]. intros; simpl; lia.
    + assert (∀ a' b', String c s = a' ++ old ++ b' →
                ∃ a'', a' = String c a'' ∧ s = a'' ++ old ++ b') as Hshift.
      { intros a' b' Hs. destruct a' as [|c' a''].
        - rewrite str_app_nil_l in Hs.
          assert (String.prefix old (String c s) = true) as Hp'
            by (apply prefix_spec; by exists b').
          congruence.
        - rewrite str_app_cons in Hs. injection Hs as <- ->. by exists a''. }
      destruct Hsub as (a0 & b0 & Hs0). destruct (Hshift _ _ Hs0) as (a1 & -> & Hs1).
      destruct IH as (a & b & Hs & Hmin); [by exists a1, b0|].
      exists (String c a), b. split; [by rewrite str_app_cons, <- Hs|].
      intros a' b' Hs'. destruct (Hshift _ _ Hs') as (a'' & -> & Hs'').
      simpl. apply le_n_S. by eapply Hmin.
Qed.

Lemma replace_first_occurrence old new s a b :
  old ≠ "" → first_occurrence old s a b →
  replace_from old new s 0 = a ++ new ++ replace_from old new b 0.
Proof.
  intros Hold. revert s. induction a as [|c a IH]; intros s [-> Hmin].
  - rewrite !str_app_nil_l.
    assert (String.prefix old (old ++ b) = true) as Hp
      by (apply prefix_spec; by exists b).
    destruct old as [|o old]; [done|]. rewrite str_app_cons in *.
    cbn [replace_from]. rewrite Hp. f_equal.
    cbn [String.length]. rewrite Nat.sub_succ, Nat.sub_0_r. apply replace_skip.
  - rewrite !str_app_cons. cbn [replace_from].
    destruct (String.prefix old (String c (a ++ old ++ b))) eqn:Hp.
    + apply prefix_spec in Hp as [rest Hrest].
      specialize (Hmin "" rest). rewrite str_app_nil_l, str_app_cons in Hmin.
      specialize (Hmin Hrest). simpl in Hmin. lia.
    + f_equal. apply IH. split; [done|].
      intros a' b' Hs. specialize (Hmin (String c a') b').
      rewrite !str_app_cons, Hs in Hmin. specialize (Hmin eq_refl).
      simpl in Hmin. lia.
Qed.

Lemma replace_from_replaced old new s :
  old ≠ "" → replaced old new s (replace_from old new s 0).
Proof.
  intros Hold.
  assert (∀ n s, (String.length s ≤ n)%nat → replaced old new s (replace_from old new s 0))
    as Hn; [|by apply (Hn (String.length s))].
  clear s. induction n as [|n IH]; intros s Hlen.
  - destruct s; [|simpl in Hlen; lia]. apply replaced_none.
    intros (a & b & Hs). destruct a; [|by rewrite str_app_cons in Hs].
    destruct old; [done|]. by rewrite str_app_nil_l, str_app_cons in Hs.
  - destruct (contains old s) eqn:Hc.
    + apply contains_spec in Hc. destruct (first_occurrence_exists _ _ Hc) as (a & b & Hfirst).
      rewrite (replace_first_occurrence old new s a b Hold Hfirst).
      eapply replaced_first; [done|]. apply IH.
      destruct Hfirst as [-> _]. rewrite !str_length_app in Hlen.
      destruct old; [done|]. simpl in Hlen. lia.
    + apply contains_false in Hc. rewrite replace_absent by done. by apply replaced_none.
Qed.

Lemma str_app_inj (a a' x x' : string) :
  String.length a = String.length a' → a ++ x = a' ++ x' → a = a' ∧ x = x'.
Proof.
  revert a'. induction a as [|c a IH]; intros [|c' a'] Hlen; try done.
  rewrite !str_app_cons. intros [= -> Heq]. simpl in Hlen.
  destruct (IH a') as [-> ->]; [lia|done|done].
Qed.

Lemma replaced_unique old new s r1 r2 :
  old ≠ "" → replaced old new s r1 → replaced old new s r2 → r1 = r2.
Proof.
  intros Hold H1. revert r2. induction H1 as [s Hnot | s a b r Hfirst Hrest IH]; intros r2 H2.
  - destruct H2 as [|s a b r [Hs _] _]; [done|]. destruct Hnot. by exists a, b.
  - destruct H2 as [s Hnot | s a' b' r' Hfirst' Hrest'].
    + destruct Hnot. destruct Hfirst as [Hs _]. by exists a, b.
    + destruct Hfirst as [Hs Hmin], Hfirst' as [Hs' Hmin'].
      pose proof (Hmin _ _ Hs'). pose proof (Hmin' _ _ Hs).
      rewrite Hs in Hs'.
      destruct (str_app_inj a a' _ _ ltac:(lia) Hs') as [<- [_ <-]%(str_app_inj old old)]; [|done].
      f_equal. f_equal. by apply IH.
Qed.

(** ** The formatter's text *)

Lemma lines_fold init items :
  foldl (λ message item, message ++ price_line item) init items
  = init ++ lines items.
Proof.
  revert init. induction items as [|x items IH]; intros init; simpl.
  - by rewrite str_app_nil_r.
  - by rewrite IH, str_app_assoc.
Qed.

Lemma format_starts_with_title e snap title w :
  ∃ text, format_market_message e snap title w = (Ok text, w)
          ∧ starts_with text (title ++ " (").
Proof.
  unfold format_market_message. cbn [mret M_ret].
  eexists. split; [reflexivity|]. rewrite lines_fold.
  eexists. rewrite !str_app_assoc. reflexivity.
Qed.

(** ** The scheduler, step by step *)

Lemma send_run e m w : sends e m w (send e m w).
Proof. unfold sends, send. by destruct (chat e). Qed.

Lemma send_market_update_run e w :
  ∃ snap w1 text,
    get_market_prices e w = (Ok snap, w1)
    ∧ format_market_message e snap "📊 Market Update" w1 = (Ok text, w1)
    ∧ send_market_update e w = send e (Outgoing GROUP_ID text None) w1
    ∧ outbox w1 = outbox w
    ∧ group_update (Outgoing GROUP_ID text None).
Proof.
  destruct (get_market_prices_run e w)
    as (snap & w1 & Hrun & _ & _ & _ & _ & Hout & _).
  destruct (format_starts_with_title e snap "📊 Market Update" w1)
    as (text & Hformat & Hstart).
  exists snap, w1, text.
  split; [done|]. split; [done|]. split; [|split; [done|]].
  - unfold send_market_update, mbind, M_bind. by rewrite Hrun, Hformat.
  - split; [done|]. split; [done|]. simpl.
    destruct Hstart as [rest ->]. exists rest. by rewrite !str_app_assoc.
Qed.

Lemma targets_idle t targets st :
  (hour (tick_now t), minute (tick_now t)) ∉ targets →
  for_each targets (target_body t) st = (Ok tt, st).
Proof.
  induction targets as [|[h m] targets IH]; simpl; [done|].
  rewrite not_elem_of_cons. intros [Hne Hnin].
  unfold mbind, M_bind, target_body.
  rewrite decide_False; [by apply IH|].
  intros [<- <-]. by apply Hne.
Qed.

Lemma targets_seen t targets st :
  key_of (tick_now t) ∈ sent_today st →
  for_each targets (target_body t) st = (Ok tt, st).
Proof.
  intros Hseen. induction targets as [|[h m] targets IH]; simpl; [done|].
  unfold mbind, M_bind, target_body at 1.
  case_decide as Hmatch; [|apply IH].
  destruct Hmatch as [<- <-]. unfold mbind, M_bind, gets.
  rewrite decide_True by done. apply IH.
Qed.

Lemma targets_hit t targets st :
  (hour (tick_now t), minute (tick_now t)) ∈ targets →
  key_of (tick_now t) ∉ sent_today st →
  for_each targets (target_body t) st = broadcast_step t st.
Proof.
  intros Hin Hnew. induction targets as [|[h m] targets IH]; simpl.
  - by apply elem_of_nil in Hin.
  - unfold mbind, M_bind, target_body at 1.
    case_decide as Hmatch.
    + destruct Hmatch as [<- <-]. unfold mbind, M_bind, gets.
      fold (key_of (tick_now t)). rewrite decide_False by done.
      unfold broadcast_step, log_send, sent_today_add, with_world, modify.
      cbn [sched_world sent_today sent_log].
      destruct (send_market_update (tick_env t) (sched_world st))
        as [[[]|ex] w']; [|done].
      apply targets_seen. cbn [sent_today].
      apply elem_of_union. right. by apply elem_of_singleton.
    + apply IH. apply elem_of_cons in Hin as [[= Hh Hm]|Hin]; [|done].
      by destruct Hmatch.
Qed.

Lemma target_not_midnight now :
  (hour now, minute now) ∈ target_times →
  ¬ (hour now = 0%N ∧ minute now = 0%N).
Proof. intros Hin [Hh Hm]. rewrite Hh, Hm in Hin. revert Hin. compute_done. Qed.

(** The body of the loop, case by case. *)
Lemma tick_body_spec t st :
  tick_body t st
  = if decide ((hour (tick_now t), minute (tick_now t)) ∈ target_times) then
      if decide (key_of (tick_now t) ∈ sent_today st) then (Ok tt, st)
      else broadcast_step t st
    else if decide (hour (tick_now t) = 0%N ∧ minute (tick_now t) = 0%N)
         then (Ok tt, SchedState ∅ (sent_log st) (sched_world st))
         else (Ok tt, st).
Proof.
  unfold tick_body, mbind, M_bind.
  destruct (decide ((hour (tick_now t), minute (tick_now t)) ∈ target_times))
    as [Htarget|Htarget].
  - pose proof (target_not_midnight _ Htarget) as Hday.
    destruct (decide (key_of (tick_now t) ∈ sent_today st)) as [Hseen|Hseen].
    + rewrite targets_seen by done. by rewrite decide_False.
    + rewrite targets_hit by done. unfold broadcast_step.
      destruct (send_market_update (tick_env t) (sched_world st))
        as [[[]|ex] w']; [|done].
      by rewrite decide_False.
  - rewrite targets_idle by done. by case_decide.
Qed.

Lemma tick_step_spec v now :
  tick_step v now
  = if decide ((hour now, minute now) ∈ target_times) then
      let key := (dt_date now, hour now, minute now) in
      if decide (key ∈ v.1) then v else (v.1 ∪ {[key]}, (v.2 ++ [key])%list)
    else if decide (hour now = 0%N ∧ minute now = 0%N) then (∅, v.2) else v.
Proof.
  destruct now as [d h m s]. destruct v as [sent log].
  unfold tick_step, target_times. cbn [foldl]. unfold target_step. simpl.
  repeat case_decide; simplify_eq/=; try done;
    repeat match goal with
    | H : _ ∧ _ |- _ => destruct H
    | H : _ ∈ _ :: _ |- _ => apply elem_of_cons in H as [H|H]
    | H : _ ∈ [] |- _ => by apply elem_of_nil in H
    | H : ¬ (_ ∈ _ :: _) |- _ => apply not_elem_of_cons in H as [? H]
    end; simplify_eq/=; try done; try (exfalso; naive_solver).
Qed.

Lemma date_lt_alt a b :
  date_lt a b
  ↔ (year a < year b
     ∨ (year a = year b
        ∧ (month a < month b ∨ (month a = month b ∧ day a < day b))))%N.
Proof.
  destruct a as [y1 m1 d1], b as [y2 m2 d2].
  unfold date_lt, date_compare, lex. simpl.
  destruct (N.compare_spec y1 y2), (N.compare_spec m1 m2),
    (N.compare_spec d1 d2); split; (done || lia).
Qed.

Lemma date_lt_irrefl a : ¬ date_lt a a.
Proof. rewrite date_lt_alt. lia. Qed.

Lemma date_lt_le_trans a b c : date_lt a b → date_lt b c ∨ b = c → date_lt a c.
Proof.
  intros Hab [Hbc | <-]; [|done].
  rewrite date_lt_alt in *. lia.
Qed.

Lemma date_compare_eq a b : date_compare a b = Eq → a = b.
Proof.
  destruct a as [y1 m1 d1], b as [y2 m2 d2].
  unfold date_compare, lex. simpl.
  destruct (N.compare_spec y1 y2), (N.compare_spec m1 m2),
    (N.compare_spec d1 d2); intros; by simplify_eq.
Qed.

Lemma dt_le_key a b :
  dt_le a b → key_le (dt_date a, hour a, minute a) b.
Proof.
  unfold dt_le, dt_compare, key_le, lex. simpl.
  destruct (date_compare (dt_date a) (dt_date b)) eqn:Hd; [|by left|done].
  apply date_compare_eq in Hd. intros Hle. right. split; [done|].
  destruct (N.compare_spec (hour a) (hour b)),
    (N.compare_spec (minute a) (minute b)); (done || lia).
Qed.

Lemma dt_le_date a b :
  dt_le a b → date_lt (dt_date a) (dt_date b) ∨ dt_date a = dt_date b.
Proof.
  intros Hle. destruct (dt_le_key a b Hle) as [?|[? _]]; [by left|by right].
Qed.

Lemma sched_inv_tail v t rest : sched_inv v (t :: rest) → sched_inv v rest.
Proof.
  intros (Hnd & Hsent & Hlog). split; [done|]. split.
  - intros k Hk. destruct (Hsent k Hk) as [Htg Hall].
    split; [done|]. by apply Forall_cons in Hall as [_ ?].
  - intros k Hk. destruct (Hlog k Hk) as [?|Hall]; [by left|right].
    by apply Forall_cons in Hall as [_ ?].
Qed.

Lemma sched_inv_step v t rest :
  chronological (t :: rest) → sched_inv v (t :: rest) →
  sched_inv (tick_step v (tick_now t)) rest.
Proof.
  intros [Hnext _] Hinv. rewrite tick_step_spec.
  set (now := tick_now t) in *. destruct v as [sent log].
  case_decide as Htarget; cbn [fst snd].
  - case_decide as Hseen; [by eapply sched_inv_tail|].
    destruct Hinv as (Hnd & Hsent & Hlog). cbn [fst snd] in *.
    split; [|split]; cbn [fst snd].
    + apply NoDup_app. split; [done|]. split; [|apply NoDup_singleton].
      intros k Hk ->%list_elem_of_singleton.
      destruct (Hlog _ Hk) as [?|Hall]; [done|].
      apply Forall_cons in Hall as [Hlt _]. by apply date_lt_irrefl in Hlt.
    + intros k [Hk | ->%elem_of_singleton]%elem_of_union.
      * destruct (Hsent k Hk) as [Htg Hall]. split; [done|].
        by apply Forall_cons in Hall as [_ ?].
      * split; [done|]. eapply Forall_impl; [exact Hnext|].
        intros t'. apply dt_le_key.
    + intros k [Hk | ->%list_elem_of_singleton]%elem_of_app.
      * destruct (Hlog k Hk) as [?|Hall]; [left; apply elem_of_union; by left|right].
        by apply Forall_cons in Hall as [_ ?].
      * left. apply elem_of_union. right. by apply elem_of_singleton.
  - case_decide as Hmidnight; [|by eapply sched_inv_tail].
    destruct Hinv as (Hnd & Hsent & Hlog). cbn [fst snd] in *.
    split; [done|]. split; [intros k Hk; by apply not_elem_of_empty in Hk|].
    cbn [fst snd].
    intros k Hk. right.
    assert (date_lt k.1.1 (dt_date now)) as Hbefore.
    { destruct (Hlog k Hk) as [Hin|Hall].
      - destruct (Hsent k Hin) as [Htg Hall].
        apply Forall_cons in Hall as [[Hlt|[_ Hhm]] _]; [done|].
        destruct Hmidnight as [Hh Hm]. fold now in Hhm.
        rewrite Hh, Hm in Hhm.
        assert (k.1.2 = 0%N ∧ k.2 = 0%N) as [Hk1 Hk2] by lia.
        rewrite Hk1, Hk2 in Htg. exfalso. revert Htg. compute_done.
      - by apply Forall_cons in Hall as [? _]. }
    eapply Forall_impl; [exact Hnext|].
    intros t' Hle. eapply date_lt_le_trans; [exact Hbefore|].
    by apply dt_le_date.
Qed.

Lemma run_view_NoDup ticks v :
  chronological ticks → sched_inv v ticks → NoDup (run_view v ticks).2.
Proof.
  unfold run_view. revert v.
  induction ticks as [|t ticks IH]; intros v Hchron Hinv; simpl.
  - by destruct Hinv.
  - apply IH; [by destruct Hchron|]. by apply sched_inv_step.
Qed.

Lemma tick_step_log_mono v now k : k ∈ v.2 → k ∈ (tick_step v now).2.
Proof.
  intros Hk. rewrite tick_step_spec. cbn zeta.
  repeat case_decide; cbn [fst snd]; try done.
  apply elem_of_app. by left.
Qed.

Lemma run_view_log_mono ticks v k : k ∈ v.2 → k ∈ (run_view v ticks).2.
Proof.
  unfold run_view. revert v. induction ticks as [|t ticks IH]; intros v Hk;
    simpl; [done|].
  by apply IH, tick_step_log_mono.
Qed.

Lemma tick_step_sent_logged v now :
  (∀ k, k ∈ v.1 → k ∈ v.2) →
  ∀ k, k ∈ (tick_step v now).1 → k ∈ (tick_step v now).2.
Proof.
  intros Hsub k. rewrite tick_step_spec. cbn zeta.
  repeat case_decide; cbn [fst snd].
  - apply Hsub.
  - intros [Hk | ->%elem_of_singleton]%elem_of_union; apply elem_of_app.
    + left. by apply Hsub.
    + right. by apply list_elem_of_singleton.
  - intros Hk. by apply not_elem_of_empty in Hk.
  - apply Hsub.
Qed.

Lemma tick_step_target_logged v now :
  (∀ k, k ∈ v.1 → k ∈ v.2) →
  (hour now, minute now) ∈ target_times →
  key_of now ∈ (tick_step v now).2.
Proof.
  intros Hsub Htarget. rewrite tick_step_spec, decide_True by done.
  cbn zeta. fold (key_of now). case_decide; cbn [fst snd].
  - by apply Hsub.
  - apply elem_of_app. right. by apply list_elem_of_singleton.
Qed.

Lemma run_view_target_logged ticks v t :
  (∀ k, k ∈ v.1 → k ∈ v.2) →
  t ∈ ticks →
  (hour (tick_now t), minute (tick_now t)) ∈ target_times →
  key_of (tick_now t) ∈ (run_view v ticks).2.
Proof.
  unfold run_view. revert v.
  induction ticks as [|t0 ticks IH]; intros v Hsub Hin Htarget; simpl.
  - by apply elem_of_nil in Hin.
  - apply elem_of_cons in Hin as [<-|Hin].
    + apply (run_view_log_mono ticks). by apply tick_step_target_logged.
    + apply IH; [|done..]. by apply tick_step_sent_logged.
Qed.


Lemma sched_inv_init ticks : sched_inv (∅, []) ticks.
Proof.
  split; [apply NoDup_nil_2|]. split; cbn [fst snd].
  - intros k Hk. by apply not_elem_of_empty in Hk.
  - intros k Hk. by apply elem_of_nil in Hk.
Qed.

Lemma sched_step_trans r st1 st2 st3 :
  sched_step (Ok tt) st1 st2 → sched_step r st2 st3 → sched_step r st1 st3.
Proof.
  intros (m1 & H1 & Hall1 & Hlen1) (m2 & H2 & Hall2 & Hlen2).
  exists (m1 ++ m2)%list. split; [by rewrite H2, H1, app_assoc|].
  split; [by apply Forall_app|]. rewrite length_app. simpl in Hlen1. lia.
Qed.

Lemma sched_step_refl st : sched_step (Ok tt) st st.
Proof.
  exists []. split; [by rewrite app_nil_r|]. split; [constructor|simpl; lia].
Qed.

(** One awaited broadcast: the fetch, the text, the send. *)
Lemma broadcast_step_run t st :
  ∃ r st' snap w1 text,
    broadcast_step t st = (r, st')
    ∧ sent_log st' = (sent_log st ++ [key_of (tick_now t)])%list
    ∧ sent_today st'
      = (if r is Ok _ then sent_today st ∪ {[key_of (tick_now t)]}
         else sent_today st)
    ∧ get_market_prices (tick_env t) (sched_world st) = (Ok snap, w1)
    ∧ format_market_message (tick_env t) snap "📊 Market Update" w1
      = (Ok text, w1)
    ∧ sends (tick_env t) (Outgoing GROUP_ID text None) w1 (r, sched_world st')
    ∧ (∀ ex, r = Raise ex → chat (tick_env t) = Some ex)
    ∧ sched_step r st st'.
Proof.
  destruct (send_market_update_run (tick_env t) (sched_world st))
    as (snap & w1 & text & Hfetch & Hformat & Hsend & Hout & Hgroup).
  pose proof (send_run (tick_env t) (Outgoing GROUP_ID text None) w1) as Hsends.
  rewrite <- Hsend in Hsends. unfold broadcast_step.
  unfold sends in Hsends. unfold sends.
  destruct (chat (tick_env t)) as [ex|] eqn:Hchat; rewrite Hsends;
    eexists _, _, snap, w1, text; (split; [reflexivity|]);
    cbn [sent_log sent_today sched_world];
    repeat (split; [done|]).
  - split; [by intros ? [= <-]|]. exists []. cbn [sched_world sent_log].
    split; [by rewrite Hout, app_nil_r|]. split; [constructor|].
    rewrite length_app. simpl. lia.
  - exists [Outgoing GROUP_ID text None].
    cbn [sched_world sent_log outbox set_outbox].
    split; [by rewrite Hout|]. split; [by constructor|].
    rewrite length_app. simpl. lia.
Qed.

Lemma tick_body_run t st :
  ∃ r st',
    tick_body t st = (r, st')
    ∧ sent_log st' = (tick_step (sched_view st) (tick_now t)).2
    ∧ (r = Ok tt → sched_view st' = tick_step (sched_view st) (tick_now t))
    ∧ (∀ ex, r = Raise ex → chat (tick_env t) = Some ex)
    ∧ sched_step r st st'.
Proof.
  rewrite tick_body_spec, tick_step_spec. cbn zeta.
  fold (key_of (tick_now t)). unfold sched_view. cbn [fst snd].
  repeat case_decide.
  - exists (Ok tt), st. repeat (split; [done|]). apply sched_step_refl.
  - destruct (broadcast_step_run t st)
      as (r & st' & _ & _ & _ & Hrun & Hlog & Hsent & _ & _ & _ & Hex & Hstep).
    exists r, st'. repeat (split; [done|]). split; [|done].
    intros ->. by rewrite Hlog, Hsent.
  - eexists (Ok tt), _. repeat (split; [done|]).
    exists []. cbn [sched_world sent_log].
    split; [by rewrite app_nil_r|]. split; [constructor|simpl; lia].
  - exists (Ok tt), st. repeat (split; [done|]). apply sched_step_refl.
Qed.

Lemma schedule_updates_run ticks st :
  ∃ r st' done rest,
    schedule_updates ticks st = (r, st')
    ∧ ticks = (done ++ rest)%list
    ∧ sent_log st' = (run_view (sched_view st) done).2
    ∧ (r = Ok tt → rest = [] ∧ sched_view st' = run_view (sched_view st) ticks)
    ∧ (∀ ex, r = Raise ex → ∃ t, t ∈ ticks ∧ chat (tick_env t) = Some ex)
    ∧ sched_step r st st'.
Proof.
  unfold schedule_updates, run_view.
  revert st. induction ticks as [|t ticks IH]; intros st; simpl.
  - exists (Ok tt), st, [], []. repeat (split; [done|]). apply sched_step_refl.
  - destruct (tick_body_run t st) as (r1 & st1 & Hrun1 & Hlog1 & Hok1 & Hex1 & Hstep1).
    unfold mbind, M_bind. rewrite Hrun1. destruct r1 as [[]|ex].
    + destruct (IH st1) as (r & st' & done & rest & Hrun & -> & Hlog & Hok & Hex & Hstep).
      exists r, st', (t :: done), rest. split; [done|]. split; [done|].
      rewrite (Hok1 eq_refl) in Hlog, Hok. simpl.
      split; [done|]. split; [done|]. split.
      * intros ex [t' [Hin Hchat]]%Hex. exists t'. split; [by right|done].
      * by eapply sched_step_trans.
    + exists (Raise ex), st1, [t], ticks. repeat (split; [done|]).
      split; [|done]. intros ? [= <-]. exists t. split; [left|by apply Hex1].
Qed.



Lemma chronological_app l1 l2 : chronological (l1 ++ l2) → chronological l1.
Proof.
  induction l1 as [|t l1 IH]; simpl; [done|].
  intros [Hall Hrest]. split; [|by apply IH].
  by apply Forall_app in Hall as [? _].
Qed.

(** ** The scheduler: statements *)

(** C2 (amended): when the clock readings of the iterations never go back,
    the loop awaits [send_market_update] at most once for each (date, hour,
    minute) key: duplicate ticks in the target minute do not repeat the
    broadcast.  Every awaited call puts one message into the outbox, but for
    a call that raises, which ends the loop; and while no call raises, every
    iteration that falls in a target minute finds its key sent. *)
Theorem C2_one_broadcast_per_target_per_day ticks w :
  chronological ticks →
  ∃ r st' msgs,
    schedule_updates ticks (sched_init w) = (r, st')
    ∧ NoDup (sent_log st')
    ∧ outbox (sched_world st') = (outbox w ++ msgs)%list
    ∧ length (sent_log st') = (length msgs + raised r)%nat
    ∧ (r = Ok tt →
       ∀ t, t ∈ ticks →
         (hour (tick_now t), minute (tick_now t)) ∈ target_times →
         key_of (tick_now t) ∈ sent_log st').
Proof.
  intros Hchron.
  destruct (schedule_updates_run ticks (sched_init w))
    as (r & st' & done & rest & Hrun & Hticks & Hlog & Hok & _ & msgs & Hout & _ & Hlen).
  exists r, st', msgs. split; [done|]. split; [|split; [done|split]].
  - rewrite Hlog. apply run_view_NoDup; [|apply sched_inv_init].
    rewrite Hticks in Hchron. by eapply chronological_app.
  - simpl in Hlen. lia.
  - intros Hr t Hin Htarget. destruct (Hok Hr) as [-> Hview].
    rewrite app_nil_r in Hticks. subst done. rewrite Hlog.
    apply run_view_target_logged; [|done..].
    intros k Hk. by apply not_elem_of_empty in Hk.
Qed.


(** ** The text message handler: statements *)

Lemma reply_text_run e u m text w :
  upd_message u = Some m →
  sends e (Outgoing (msg_chat m) text None) w (reply_text e u text w).
Proof. intros Hm. unfold reply_text. rewrite Hm. apply send_run. Qed.

Lemma reply_loop_run e u m msg items w :
  upd_message u = Some m →
  (∃ keyword reply,
     first_match items msg keyword reply
     ∧ sends e (Outgoing (msg_chat m) reply None) w (reply_loop e u msg items w))
  ∨ (no_match items msg ∧ reply_loop e u msg items w = (Ok tt, w)).
Proof.
  intros Hm. induction items as [|[keyword reply] items IH]; simpl.
  - right. split; [|done]. intros k r Hin. by apply elem_of_nil in Hin.
  - assert (∀ out,
      (∃ k r, first_match items msg k r
              ∧ sends e (Outgoing (msg_chat m) r None) w out)
      ∨ no_match items msg ∧ out = (Ok tt, w) →
      reserved keyword ∨ ¬ is_substring keyword msg →
      (∃ k r, first_match ((keyword, reply) :: items) msg k r
              ∧ sends e (Outgoing (msg_chat m) r None) w out)
      ∨ no_match ((keyword, reply) :: items) msg ∧ out = (Ok tt, w)) as Hskip.
    { intros out [(k & r & (before & after & -> & Hres & Hsub & Hfirst) & Hout)
                 | [Hnone ->]] Hnot.
      - left. exists k, r. split; [|done].
        exists ((keyword, reply) :: before), after. repeat split; try done.
        intros k' r' [[= -> ->] | Hin]%elem_of_cons; [done|by eapply Hfirst].
      - right. split; [|done].
        intros k' r' [[= -> ->] | Hin]%elem_of_cons; [done|by eapply Hnone]. }
    destruct (String.prefix "_" keyword) eqn:Hres.
    { apply Hskip; [done|]. left. by apply prefix_spec. }
    destruct (contains keyword msg) eqn:Hsub.
    + left. exists keyword, reply. split; [|by apply reply_text_run].
      exists [], items. repeat split; try done.
      * intros Hr%prefix_spec. congruence.
      * by apply contains_spec.
      * intros k r Hin. by apply elem_of_nil in Hin.
    + apply Hskip; [done|]. right. by apply contains_false.
Qed.

(** C6: for a text message, when the lowercased text contains "price" (or
    begins with "/price") the handler does what [handle_price_request] does:
    one fetch, one reply with the formatted prices handed to the chat
    platform, no keyword reply; otherwise the only effect is the reply of the
    first entry, in stored order, whose key is not reserved and occurs in the
    lowercased text, and no effect at all when there is no such entry. *)
Theorem C6_auto_reply e w u m text :
  upd_message u = Some m → msg_text m = Some text → text ≠ "" →
  (is_substring "price" (str_lower text) ∨ starts_with (str_lower text) "/price" →
     auto_reply e u w = handle_price_request e u w
     ∧ ∃ snap w1 reply,
         get_market_prices e w = (Ok snap, w1)
         ∧ format_market_message e snap default_title w1 = (Ok reply, w1)
         ∧ sends e (Outgoing (msg_chat m) reply None) w1 (auto_reply e u w))
  ∧ (¬ is_substring "price" (str_lower text) →
     (∃ keyword reply,
        first_match (responses w) (str_lower text) keyword reply
        ∧ sends e (Outgoing (msg_chat m) reply None) w (auto_reply e u w))
     ∨ (no_match (responses w) (str_lower text) ∧ auto_reply e u w = (Ok tt, w))).
Proof.
  intros Hm Ht Hne. unfold auto_reply. rewrite Hm, Ht.
  destruct text as [|c text]; [done|].
  set (msg := str_lower (String c text)). split.
  - intros Hprice.
    assert (contains "price" msg || String.prefix "/price" msg = true) as ->.
    { apply orb_true_iff.
      destruct Hprice; [left; by apply contains_spec | right; by apply prefix_spec]. }
    split; [done|].
    destruct (get_market_prices_run e w) as (snap & w1 & Hrun & _).
    exists snap, w1. eexists. split; [done|]. split; [done|].
    unfold handle_price_request, mbind, M_bind. rewrite Hrun.
    unfold format_market_message. cbn [mret M_ret].
    by apply reply_text_run.
  - intros Hnot.
    assert (contains "price" msg || String.prefix "/price" msg = false) as ->.
    { apply orb_false_iff. split; [by apply contains_false|].
      destruct (String.prefix "/price" msg) eqn:Hp; [|done].
      apply prefix_spec in Hp as [rest Hrest]. exfalso. apply Hnot.
      exists "/", rest. by rewrite Hrest. }
    unfold mbind, M_bind, gets. by apply reply_loop_run.
Qed.

(** ** The membership handler: statement *)

(** C9: a membership change hands a message to the chat platform iff the
    status goes from left or kicked to member; the message goes to the chat
    of the event, in HTML mode, and its text is the welcome template with
    each occurrence of the name placeholder replaced by the mention of the
    joining user; any other transition has no effect. *)
Theorem C9_welcome e msg cm w :
  ((old_status cm = left ∨ old_status cm = kicked) ∧ new_status cm = member
   ∧ ∃ text,
       replaced "{name}" (mention_html (new_user cm)) (welcome_template w) text
       ∧ sends e (Outgoing (cm_chat cm) text (Some "HTML")) w
           (welcome e (Update msg (Some cm)) w))
  ∨ (¬ ((old_status cm = left ∨ old_status cm = kicked) ∧ new_status cm = member)
     ∧ welcome e (Update msg (Some cm)) w = (Ok tt, w)).
Proof.
  unfold welcome. cbn [upd_chat_member].
  destruct (decide ((old_status cm = left ∨ old_status cm = kicked)
                    ∧ new_status cm = member)) as [[Hold Hnew]|Hnot].
  - left. split; [done|]. split; [done|].
    assert (bool_decide (old_status cm = left)
            || bool_decide (old_status cm = kicked) = true) as ->.
    { destruct Hold as [-> | ->]; done. }
    rewrite Hnew. cbn [andb bool_decide decide_rel].
    unfold mbind, M_bind, responses_get, gets. fold (welcome_template w).
    eexists. split; [|apply send_run].
    unfold str_replace. by apply replace_from_replaced.
  - right. split; [done|].
    destruct (old_status cm) eqn:Ho, (new_status cm) eqn:Hn; try done;
      exfalso; apply Hnot; auto.
Qed.

(** ** The formatter: statements *)

Lemma round_half_even_proper x y : (x == y)%Q → round_half_even x = round_half_even y.
Proof.
  intros Heq. unfold round_half_even.
  rewrite (Qfloor_comp x y Heq).
  assert ((x - inject_Z (Qfloor y) ?= 1 # 2)%Q
          = (y - inject_Z (Qfloor y) ?= 1 # 2)%Q) as ->; [|done].
  apply Qcompare_comp; [by rewrite Heq | reflexivity].
Qed.

Lemma exact_pos m e : (0 < exact m e)%Q.
Proof.
  unfold exact. apply Qmult_lt_0_compat; [done|]. by apply Qpower_0_lt.
Qed.

Lemma format_price_65000_50 p : has_value p 65000.5 → format_price p = "65,000.50".
Proof.
  destruct p as [z| | |s m e]; cbn [has_value]; try done.
  pose proof (exact_pos m e) as Hpos. destruct s; intros Hv.
  - exfalso. revert Hpos Hv. generalize (exact m e). intros q ? ?. lra.
  - unfold format_price.
    rewrite (round_half_even_proper (exact m e * 100)%Q (65000.5 * 100)%Q)
      by (by rewrite Hv).
    reflexivity.
Qed.

Lemma lines_app l1 l2 : lines (l1 ++ l2) = lines l1 ++ lines l2.
Proof.
  induction l1 as [|x l1 IH]; simpl; [done|].
  by rewrite IH, str_app_assoc.
Qed.

Lemma price_line_nl item : ∃ body, price_line item = body ++ NL.
Proof.
  destruct item as [coin [[p|] a]]; unfold price_line; eexists;
    rewrite <- ?str_app_assoc; reflexivity.
Qed.

(** Text that ends a line still ends a line after more lines. *)
Lemma lines_end_nl items head :
  ∃ body, (head ++ NL) ++ lines items = body ++ NL.
Proof.
  revert head. induction items as [|x items IH]; intros head; simpl.
  - exists head. by rewrite str_app_nil_r.
  - destruct (price_line_nl x) as [body ->].
    destruct (IH ((head ++ NL) ++ body)) as [body' Hbody'].
    exists body'. rewrite <- Hbody'. by rewrite !str_app_assoc.
Qed.

(** C7: a snapshot in which BTC has price 65000.5 is formatted into a text
    with the line "💰 BTC/USD: $65,000.50" followed by the glyph of its
    indicator, once, and the end of the line; the text is the same in two
    calls that read the same clock, whatever else the world holds, and the
    call changes nothing. *)
Theorem C7_format_btc_line e e' w w' title snap p a :
  has_value p 65000.5 →
  ("BTC", (Some p, a)) ∈ snap →
  (∃ text before after,
     format_market_message e snap title w = (Ok text, w)
     ∧ text = before ++ NL ++ "💰 BTC/USD: $65,000.50" ++ arrow_glyph a
              ++ NL ++ after)
  ∧ (clock e' = clock e →
     format_market_message e' snap title w'
     = ((format_market_message e snap title w).1, w')).
Proof.
  intros Hp Hin. split.
  - apply list_elem_of_split in Hin as (l1 & l2 & ->).
    unfold format_market_message. cbn [mret M_ret].
    rewrite lines_fold, lines_app. simpl lines at 2.
    set (head := title ++ " (" ++ strftime (clock e) ++ "):" ++ NL).
    destruct (lines_end_nl l1 head) as [before Hbefore].
    eexists _, before, (lines l2 ++ NL ++ _). split; [reflexivity|].
    replace (title ++ " (" ++ strftime (clock e) ++ "):" ++ NL ++ NL)
      with (head ++ NL) by (unfold head; by rewrite !str_app_assoc).
    rewrite <- (str_app_assoc (head ++ NL)), Hbefore.
    unfold price_line. rewrite (format_price_65000_50 p Hp).
    rewrite !str_app_assoc. reflexivity.
  - intros Hclock. unfold format_market_message. by rewrite Hclock.
Qed.

(** ** Further properties of the fetcher *)

Lemma dict_get_elem {V} (d : list (string * V)) k v :
  NoDup d.*1 → (k, v) ∈ d → dict_get d k = Some v.
Proof.
  induction d as [|[k0 v0] d IH]; simpl.
  - intros _ Hin. by apply elem_of_nil in Hin.
  - rewrite NoDup_cons. intros [Hfresh Hnd] [[= -> ->]|Hin]%elem_of_cons.
    + by rewrite decide_True.
    + rewrite decide_False; [by apply IH|].
      intros ->. apply Hfresh. by apply (list_elem_of_fmap_2 fst _ _ Hin).
Qed.

Lemma ticker_of_name name :
  name ∈ TICKERS.*1 → ∃ coin_id, (name, coin_id) ∈ TICKERS.
Proof.
  intros ([n c] & -> & Hin)%list_elem_of_fmap_1. by exists c.
Qed.

(** The entry a snapshot holds for one of its symbols. *)
Lemma snapshot_entry e w snap w' name entry :
  get_market_prices e w = (Ok snap, w') →
  (name, entry) ∈ snap →
  ∃ coin_id,
    (name, coin_id) ∈ TICKERS
    ∧ entry = entry_of (last_prices w !! name) (parsed_price e coin_id).
Proof.
  intros Hrun Hin.
  destruct (get_market_prices_run e w) as (snap0 & w0 & Hrun0 & Hkeys & Hent & _).
  rewrite Hrun0 in Hrun. injection Hrun as -> ->.
  assert (name ∈ TICKERS.*1) as [c Hc]%ticker_of_name.
  { rewrite <- Hkeys. by apply (list_elem_of_fmap_2 fst _ _ Hin). }
  exists c. split; [done|].
  destruct (Hent name c Hc) as [Hget _].
  assert (dict_get snap name = Some entry) as Hget'.
  { apply dict_get_elem; [|done]. rewrite Hkeys. apply TICKERS_NoDup. }
  congruence.
Qed.

(** X1: a fetch never raises; its snapshot lists the five ticker symbols in
    the order of [TICKERS], whatever the response, and an entry has no price
    exactly when its indicator is the unknown one. *)
Theorem X1_snapshot_shape e w :
  ∃ snap w',
    get_market_prices e w = (Ok snap, w')
    ∧ snap.*1 = ["BTC"; "ETH"; "BNB"; "SOL"; "XAU"]
    ∧ ∀ name price ind,
        (name, (price, ind)) ∈ snap → (price = None ↔ ind = Unknown).
Proof.
  destruct (get_market_prices_run e w) as (snap & w' & Hrun & Hkeys & _).
  exists snap, w'. split; [done|]. split; [done|].
  intros name price ind Hin.
  destruct (snapshot_entry e w snap w' name _ Hrun Hin) as (c & _ & Hentry).
  unfold entry_of in Hentry. destruct (parsed_price e c) as [x|].
  - injection Hentry as -> ->. split; [done|].
    intros Hk. by apply movement_known in Hk.
  - by injection Hentry as -> ->.
Qed.

(** X2: a fetch sends no message and leaves the response table alone; it
    forgets no stored price, leaves the prices of symbols outside the ticker
    set as they are, and prints nothing but its own error lines. *)
Theorem X2_fetch_frame e w :
  ∃ snap w',
    get_market_prices e w = (Ok snap, w')
    ∧ responses w' = responses w
    ∧ outbox w' = outbox w
    ∧ (∀ n, n ∉ TICKERS.*1 → last_prices w' !! n = last_prices w !! n)
    ∧ (∀ n, is_Some (last_prices w !! n) → is_Some (last_prices w' !! n))
    ∧ stdout w' = (stdout w ++ fetch_error_lines e ++ save_error_lines e)%list.
Proof.
  destruct (get_market_prices_run e w)
    as (snap & w' & Hrun & _ & Hent & Hother & Hresp & Hout & _ & Hstd).
  exists snap, w'. repeat (split; [done|]). split; [|done].
  intros n Hsome. destruct (decide (n ∈ TICKERS.*1)) as [Hn|Hn].
  - apply ticker_of_name in Hn as [c Hc].
    destruct (Hent n c Hc) as [_ ->].
    unfold stored_of. by destruct (parsed_price e c).
  - by rewrite Hother.
Qed.

(** X3: a second fetch that gets the same quotes changes no stored price and
    reports no symbol as up or down. *)
Theorem X3_same_quotes_are_flat e w :
  ∃ snap1 w1 snap2 w2,
    get_market_prices e w = (Ok snap1, w1)
    ∧ get_market_prices e w1 = (Ok snap2, w2)
    ∧ last_prices w2 = last_prices w1
    ∧ ∀ name price ind, (name, (price, ind)) ∈ snap2 → ind ≠ Up ∧ ind ≠ Down.
Proof.
  destruct (get_market_prices_run e w)
    as (snap1 & w1 & Hrun1 & _ & Hent1 & _).
  destruct (get_market_prices_run e w1)
    as (snap2 & w2 & Hrun2 & _ & Hent2 & Hother2 & _).
  exists snap1, w1, snap2, w2. split; [done|]. split; [done|]. split.
  - apply map_eq. intros n. destruct (decide (n ∈ TICKERS.*1)) as [Hn|Hn].
    + apply ticker_of_name in Hn as [c Hc].
      destruct (Hent2 n c Hc) as [_ ->]. destruct (Hent1 n c Hc) as [_ ->].
      unfold stored_of. by destruct (parsed_price e c).
    + by apply Hother2.
  - intros name price ind Hin.
    destruct (snapshot_entry e w1 snap2 w2 name _ Hrun2 Hin) as (c & Hc & Hentry).
    destruct (Hent1 name c Hc) as [_ Hstored]. rewrite Hstored in Hentry.
    unfold entry_of, stored_of in Hentry.
    destruct (parsed_price e c) as [x|]; injection Hentry as -> ->; [|done].
    unfold movement. by rewrite float_ltb_irrefl.
Qed.

(** X4: after a fetch whose write succeeds, loading [prices.json] gives back
    exactly the prices held in memory, so a restart compares with them. *)
Theorem X4_saved_prices_load_back e w :
  disk e = WriteOk →
  ∃ snap w',
    get_market_prices e w = (Ok snap, w')
    ∧ load_last_prices (on_disk (prices_file w')) = Ok (last_prices w').
Proof.
  intros Hdisk.
  destruct (get_market_prices_run e w)
    as (snap & w' & Hrun & _ & _ & _ & _ & _ & Hfile & _).
  exists snap, w'. split; [done|].
  rewrite Hfile. unfold file_after. by rewrite Hdisk.
Qed.

(** X5: when the write fails the fetch still returns its snapshot, but the
    file falls behind the memory: a later load finds what it would have found
    before the fetch if [open] failed, and the empty map if [json.dump]
    failed after the file was truncated. *)
Theorem X5_failed_write_leaves_file_behind e w :
  disk e ≠ WriteOk →
  ∃ snap w',
    get_market_prices e w = (Ok snap, w')
    ∧ load_last_prices (on_disk (prices_file w'))
      = match disk e with
        | DumpFails _ => Ok ∅
        | _ => load_last_prices (on_disk (prices_file w))
        end.
Proof.
  intros Hdisk.
  destruct (get_market_prices_run e w)
    as (snap & w' & Hrun & _ & _ & _ & _ & _ & Hfile & _).
  exists snap, w'. split; [done|].
  rewrite Hfile. unfold file_after. by destruct (disk e).
Qed.

(** ** Further properties of the formatter *)

Lemma lines_elem item items :
  item ∈ items →
  ∃ l1 l2, lines items = lines l1 ++ price_line item ++ lines l2.
Proof.
  intros (l1 & l2 & ->)%list_elem_of_split. exists l1, l2.
  by rewrite lines_app.
Qed.

(** X6: the formatter never raises and changes nothing; its text begins with
    the title and the time stamp, holds one full line for every entry of the
    snapshot (the N/A line for an entry without price), and ends with the
    tagline on a line of its own. *)
Theorem X6_message_layout e snap title w :
  ∃ text,
    format_market_message e snap title w = (Ok text, w)
    ∧ starts_with text (title ++ " (" ++ strftime (clock e) ++ "):" ++ NL)
    ∧ (∀ item, item ∈ snap →
         ∃ before after, text = before ++ NL ++ price_line item ++ after)
    ∧ (∀ coin a, (coin, (None, a)) ∈ snap →
         is_substring (NL ++ "⚠️ " ++ coin ++ "/USD: N/A" ++ arrow_glyph a ++ NL)
           text)
    ∧ ∃ body, text = body ++ NL ++ "💰 One trade is enough to change your life 💸".
Proof.
  unfold format_market_message. cbn [mret M_ret].
  eexists. split; [reflexivity|]. rewrite lines_fold.
  set (head := title ++ " (" ++ strftime (clock e) ++ "):" ++ NL).
  replace (title ++ " (" ++ strftime (clock e) ++ "):" ++ NL ++ NL)
    with (head ++ NL) by (unfold head; by rewrite !str_app_assoc).
  set (tail := NL ++ "💰 One trade is enough to change your life 💸").
  assert (∀ item, item ∈ snap →
            ∃ before after,
              ((head ++ NL) ++ lines snap) ++ tail
              = before ++ NL ++ price_line item ++ after) as Hline.
  { intros item (l1 & l2 & ->)%lines_elem.
    destruct (lines_end_nl l1 head) as [before Hbefore].
    exists before, (lines l2 ++ tail).
    rewrite <- (str_app_assoc (head ++ NL)), Hbefore.
    by rewrite !str_app_assoc. }
  split; [|split; [|split]].
  - exists (NL ++ lines snap ++ tail). by rewrite !str_app_assoc.
  - done.
  - intros coin a Hin. destruct (Hline _ Hin) as (before & after & ->).
    exists before, after. unfold price_line. by rewrite !str_app_assoc.
  - by exists ((head ++ NL) ++ lines snap).
Qed.

(** ** Further properties of the scheduler *)

Lemma run_view_log_origin ticks v k :
  k ∈ (run_view v ticks).2 →
  k ∈ v.2
  ∨ ∃ t, t ∈ ticks ∧ k = key_of (tick_now t)
         ∧ (hour (tick_now t), minute (tick_now t)) ∈ target_times.
Proof.
  unfold run_view. revert v.
  induction ticks as [|t ticks IH]; intros v; simpl; [by left|].
  intros [Hk | (t' & Hin & -> & Htarget)]%IH.
  - revert Hk. rewrite tick_step_spec. cbn zeta.
    repeat case_decide; cbn [fst snd]; try by left.
    intros [Hk | ->%list_elem_of_singleton]%elem_of_app; [by left|].
    right. exists t. split; [left|done].
  - right. exists t'. split; [by right|done].
Qed.

(** X8: the loop awaits a broadcast only in an iteration whose clock reading
    lies in a target minute, under the key of that reading; a target minute
    in which no iteration falls gets no broadcast on that date.  The loop
    ends with an exception only when the chat platform raised it. *)
Theorem X8_broadcasts_only_in_target_minutes ticks w :
  ∃ r st',
    schedule_updates ticks (sched_init w) = (r, st')
    ∧ (∀ ex, r = Raise ex → ∃ t, t ∈ ticks ∧ chat (tick_env t) = Some ex)
    ∧ ∀ k, k ∈ sent_log st' →
        (k.1.2, k.2) ∈ target_times
        ∧ ∃ t, t ∈ ticks ∧ dt_date (tick_now t) = k.1.1
               ∧ hour (tick_now t) = k.1.2 ∧ minute (tick_now t) = k.2.
Proof.
  destruct (schedule_updates_run ticks (sched_init w))
    as (r & st' & done & rest & Hrun & -> & Hlog & _ & Hex & _).
  exists r, st'. split; [done|]. split; [done|]. intros k. rewrite Hlog.
  intros [Hk | (t & Hin & -> & Htarget)]%run_view_log_origin.
  - by apply elem_of_nil in Hk.
  - split; [done|]. exists t. split; [|done].
    apply elem_of_app. by left.
Qed.

(** X9: an iteration outside the target minutes fetches nothing, sends
    nothing and writes nothing: the world and the log are as before, and the
    sent set is as before or, at 00:00, empty. *)
Theorem X9_idle_iteration t st :
  (hour (tick_now t), minute (tick_now t)) ∉ target_times →
  ∃ st',
    tick_body t st = (Ok tt, st')
    ∧ sched_world st' = sched_world st
    ∧ sent_log st' = sent_log st
    ∧ sent_today st'
      = if decide (hour (tick_now t) = 0%N ∧ minute (tick_now t) = 0%N)
        then ∅ else sent_today st.
Proof.
  intros Hidle. unfold tick_body, mbind, M_bind.
  rewrite (targets_idle t target_times st Hidle).
  case_decide; by eexists.
Qed.

(** X10: whatever the quote provider and the disk answer, the loop puts
    into the outbox nothing but its broadcasts, each to [GROUP_ID], without
    parse mode, beginning with the title of the scheduled update: one for
    every awaited call, but for a call in which the chat platform raises.
    That exception is the only one that ends the loop. *)
Theorem X10_scheduler_sends_to_group_only ticks w :
  ∃ r st' msgs,
    schedule_updates ticks (sched_init w) = (r, st')
    ∧ outbox (sched_world st') = (outbox w ++ msgs)%list
    ∧ Forall group_update msgs
    ∧ length (sent_log st') = (length msgs + raised r)%nat
    ∧ (∀ ex, r = Raise ex → ∃ t, t ∈ ticks ∧ chat (tick_env t) = Some ex)
    ∧ ((∀ t, t ∈ ticks → chat (tick_env t) = None) → r = Ok tt).
Proof.
  destruct (schedule_updates_run ticks (sched_init w))
    as (r & st' & done & rest & Hrun & _ & _ & _ & Hex & msgs & Hout & Hall & Hlen).
  exists r, st', msgs. split; [done|]. split; [done|]. split; [done|].
  split; [simpl in Hlen; lia|]. split; [done|].
  intros Hquiet. destruct r as [[]|ex]; [done|].
  destruct (Hex ex eq_refl) as (t & Hin & Hchat).
  by rewrite (Hquiet t Hin) in Hchat.
Qed.

(** ** Further properties of the handlers *)

Lemma chars_app (s1 s2 : string) :
  list_ascii_of_string (s1 ++ s2)
  = (list_ascii_of_string s1 ++ list_ascii_of_string s2)%list.
Proof.
  induction s1 as [|c s1 IH]; [done|].
  rewrite str_app_cons. simpl. by rewrite IH.
Qed.

Lemma substring_chars needle hay c :
  is_substring needle hay →
  c ∈ list_ascii_of_string needle → c ∈ list_ascii_of_string hay.
Proof.
  intros (before & after & ->) Hc. rewrite !chars_app, !elem_of_app. auto.
Qed.

(** A text message without "price" goes to the keyword loop. *)
Lemma auto_reply_keyword_run e w u m text :
  upd_message u = Some m → msg_text m = Some text → text ≠ "" →
  ¬ is_substring "price" (str_lower text) →
  auto_reply e u w = reply_loop e u (str_lower text) (responses w) w.
Proof.
  intros Hm Ht Hne Hnot. unfold auto_reply. rewrite Hm, Ht.
  destruct text as [|c text]; [done|].
  set (msg := str_lower (String c text)) in *.
  assert (contains "price" msg || String.prefix "/price" msg = false) as ->.
  { apply orb_false_iff. split; [by apply contains_false|].
    destruct (String.prefix "/price" msg) eqn:Hp; [|done].
    apply prefix_spec in Hp as [rest Hrest]. exfalso. apply Hnot.
    exists "/", rest. by rewrite Hrest. }
  done.
Qed.

(** X11: the text is lowercased but the keys are not, so with a lowercasing
    that leaves no ASCII capital a reply to a keyword message always comes
    from an entry whose key holds no ASCII capital: an entry with a capital
    in its key is never used. *)
Theorem X11_keys_with_capitals_never_match e w u m text :
  (∀ s c, c ∈ list_ascii_of_string (str_lower s) → is_upper c = false) →
  upd_message u = Some m → msg_text m = Some text → text ≠ "" →
  ¬ is_substring "price" (str_lower text) →
  (∃ keyword reply,
     (keyword, reply) ∈ responses w
     ∧ (∀ c, c ∈ list_ascii_of_string keyword → is_upper c = false)
     ∧ sends e (Outgoing (msg_chat m) reply None) w (auto_reply e u w))
  ∨ auto_reply e u w = (Ok tt, w).
Proof.
  intros Hlower Hm Ht Hne Hnot.
  rewrite (auto_reply_keyword_run e w u m text Hm Ht Hne Hnot).
  destruct (reply_loop_run e u m (str_lower text) (responses w) w Hm)
    as [(k & r & (before & after & Hitems & _ & Hsub & _) & Hsends) | [_ Hrun]];
    [left|by right].
  exists k, r. split; [|split; [|done]].
  - rewrite Hitems. apply elem_of_app. right. left.
  - intros c Hc. apply (Hlower text). by eapply substring_chars.
Qed.

Lemma replace_present old new s :
  old ≠ "" → is_substring old s → is_substring new (replace_from old new s 0).
Proof.
  intros Hold (before & after & ->).
  induction before as [|c before IH].
  - rewrite str_app_nil_l.
    assert (String.prefix old (old ++ after) = true) as Hp
      by (apply prefix_spec; by exists after).
    destruct old as [|a old]; [done|]. rewrite str_app_cons in *.
    cbn [replace_from]. rewrite Hp. by eexists "", _.
  - rewrite str_app_cons. cbn [replace_from].
    destruct (String.prefix old (String c (before ++ old ++ after))).
    + by eexists "", _.
    + destruct IH as (pre & post & ->). by exists (String c pre), post.
Qed.

(** X12: when a user joins, the one message handed to the chat platform
    goes to the chat of the event in HTML mode; it holds the mention of the
    user whenever the template holds the placeholder, and is the template
    itself, with no mention put in, when the template has no placeholder. *)
Theorem X12_welcome_holds_mention e msg cm w :
  old_status cm = left ∨ old_status cm = kicked →
  new_status cm = member →
  ∃ text,
    sends e (Outgoing (cm_chat cm) text (Some "HTML")) w
      (welcome e (Update msg (Some cm)) w)
    ∧ (is_substring "{name}" (welcome_template w) →
       is_substring (mention_html (new_user cm)) text)
    ∧ (¬ is_substring "{name}" (welcome_template w) →
       text = welcome_template w).
Proof.
  intros Hold Hnew. unfold welcome. cbn [upd_chat_member]. rewrite Hnew.
  assert (bool_decide (old_status cm = left)
          || bool_decide (old_status cm = kicked) = true) as ->.
  { destruct Hold as [-> | ->]; done. }
  cbn [andb bool_decide decide_rel]. unfold mbind, M_bind, responses_get, gets.
  eexists. split; [apply send_run|].
  fold (welcome_template w). unfold str_replace. split.
  - by apply replace_present.
  - apply replace_absent.
Qed.

Lemma reload_responses_run table e u m w :
  upd_message u = Some m →
  sends e
    (Outgoing (msg_chat m)
       (default "Reloaded!" (dict_get table "_reload_success")) None)
    (set_responses table w)
    (reload_responses (Holds table) e u w).
Proof.
  intros Hm. unfold reload_responses, mbind, M_bind, lift_result. simpl.
  by apply reply_text_run.
Qed.

(** X13: after a reload from a file holding a table, the table in memory is
    the one of the file, whether the confirmation could be delivered or not;
    the confirmation is its [_reload_success] text (or "Reloaded!"), stored
    prices are untouched, and the next keyword message is answered from the
    new table. *)
Theorem X13_reload_then_reply table e1 e w u m u2 m2 text :
  upd_message u = Some m →
  upd_message u2 = Some m2 → msg_text m2 = Some text → text ≠ "" →
  ¬ is_substring "price" (str_lower text) →
  ∃ r w1,
    reload_responses (Holds table) e1 u w = (r, w1)
    ∧ responses w1 = table
    ∧ last_prices w1 = last_prices w
    ∧ sends e1
        (Outgoing (msg_chat m)
           (default "Reloaded!" (dict_get table "_reload_success")) None)
        (set_responses table w) (r, w1)
    ∧ outbox w1
      = (outbox w
         ++ if r is Ok _
            then [Outgoing (msg_chat m)
                    (default "Reloaded!" (dict_get table "_reload_success"))
                    None]
            else [])%list
    ∧ ((∃ keyword reply,
          first_match table (str_lower text) keyword reply
          ∧ sends e (Outgoing (msg_chat m2) reply None) w1 (auto_reply e u2 w1))
       ∨ (no_match table (str_lower text) ∧ auto_reply e u2 w1 = (Ok tt, w1))).
Proof.
  intros Hm Hm2 Ht Hne Hnot.
  pose proof (reload_responses_run table e1 u m w Hm) as Hsends.
  destruct (reload_responses (Holds table) e1 u w) as [r w1].
  exists r, w1. split; [done|].
  assert (responses w1 = table ∧ last_prices w1 = last_prices w
          ∧ outbox w1
            = (outbox w
               ++ if r is Ok _
                  then [Outgoing (msg_chat m)
                          (default "Reloaded!" (dict_get table "_reload_success"))
                          None]
                  else [])%list) as (Hresp & Hlast & Hout).
  { unfold sends in Hsends. destruct (chat e1); injection Hsends as -> ->.
    - by rewrite app_nil_r.
    - done. }
  split; [done|]. split; [done|]. split; [done|]. split; [done|].
  rewrite (auto_reply_keyword_run e w1 u2 m2 text Hm2 Ht Hne Hnot), Hresp.
  by apply reply_loop_run.
Qed.

(** X14: a reload that finds text that is not JSON, or a file it cannot
    read, raises and leaves the table and everything else as they were; a
    reload that finds no file empties the table and confirms with
    "Reloaded!", after which a message without "price" gets no reply. *)
Theorem X14_reload_without_table e1 e w u m u2 m2 text ex :
  upd_message u = Some m →
  upd_message u2 = Some m2 → msg_text m2 = Some text → text ≠ "" →
  ¬ is_substring "price" (str_lower text) →
  reload_responses Garbled e1 u w
  = (Raise (Exn JSONDecodeError "Expecting value"), w)
  ∧ reload_responses (Unreadable ex) e1 u w = (Raise ex, w)
  ∧ ∃ r w1,
      reload_responses Absent e1 u w = (r, w1)
      ∧ responses w1 = []
      ∧ sends e1 (Outgoing (msg_chat m) "Reloaded!" None) (set_responses [] w)
          (r, w1)
      ∧ outbox w1
        = (outbox w
           ++ if r is Ok _ then [Outgoing (msg_chat m) "Reloaded!" None]
              else [])%list
      ∧ auto_reply e u2 w1 = (Ok tt, w1).
Proof.
  intros Hm Hm2 Ht Hne Hnot. split; [done|]. split; [done|].
  assert (sends e1 (Outgoing (msg_chat m) "Reloaded!" None) (set_responses [] w)
            (reload_responses Absent e1 u w)) as Hsends.
  { unfold reload_responses, mbind, M_bind, lift_result. simpl.
    by apply reply_text_run. }
  destruct (reload_responses Absent e1 u w) as [r w1].
  exists r, w1. split; [done|].
  assert (responses w1 = []
          ∧ outbox w1
            = (outbox w
               ++ if r is Ok _ then [Outgoing (msg_chat m) "Reloaded!" None]
                  else [])%list) as (Hresp & Hout).
  { unfold sends in Hsends. destruct (chat e1); injection Hsends as -> ->.
    - by rewrite app_nil_r.
    - done. }
  split; [done|]. split; [done|]. split; [done|].
  rewrite (auto_reply_keyword_run e w1 u2 m2 text Hm2 Ht Hne Hnot), Hresp.
  done.
Qed.

(** ** The price request as a whole *)

Lemma format_has_line e snap title w item :
  item ∈ snap →
  ∃ text before after,
    format_market_message e snap title w = (Ok text, w)
    ∧ text = before ++ NL ++ price_line item ++ after.
Proof.
  intros (l1 & l2 & Hlines)%lines_elem.
  unfold format_market_message. cbn [mret M_ret]. rewrite lines_fold, Hlines.
  set (head := title ++ " (" ++ strftime (clock e) ++ "):" ++ NL).
  destruct (lines_end_nl l1 head) as [before Hbefore].
  eexists _, before, _. split; [reflexivity|].
  replace (title ++ " (" ++ strftime (clock e) ++ "):" ++ NL ++ NL)
    with (head ++ NL) by (unfold head; by rewrite !str_app_assoc).
  rewrite <- (str_app_assoc (head ++ NL)), Hbefore.
  rewrite !str_app_assoc. reflexivity.
Qed.

Lemma price_line_names_pair coin price a :
  is_substring (" " ++ coin ++ "/USD: ") (price_line (coin, (price, a))).
Proof.
  unfold price_line. destruct price as [p|].
  - exists (coin_symbol coin), ("$" ++ format_price p ++ arrow_glyph a ++ NL).
    by rewrite !str_app_assoc.
  - exists "⚠️", ("N/A" ++ arrow_glyph a ++ NL). by rewrite !str_app_assoc.
Qed.

Lemma is_substring_within needle s before after :
  is_substring needle s → is_substring needle (before ++ s ++ after).
Proof.
  intros (b & a & ->). exists (before ++ b), (a ++ after).
  by rewrite !str_app_assoc.
Qed.

(** X15: a price request on an update that carries a message does one fetch
    and hands one reply to the chat platform, for the chat of the message
    and without parse mode;
    the reply begins with the default title and names every pair of the
    ticker set, whether its price is available or not. *)
Theorem X15_price_request_reply e w u m :
  upd_message u = Some m →
  ∃ snap w1 text,
    get_market_prices e w = (Ok snap, w1)
    ∧ sends e (Outgoing (msg_chat m) text None) w1 (handle_price_request e u w)
    ∧ starts_with text (default_title ++ " (")
    ∧ ∀ name, name ∈ TICKERS.*1 → is_substring (" " ++ name ++ "/USD: ") text.
Proof.
  intros Hm.
  destruct (get_market_prices_run e w) as (snap & w1 & Hrun & Hkeys & _).
  destruct (format_starts_with_title e snap default_title w1)
    as (text & Hformat & Hstart).
  exists snap, w1, text. split; [done|]. split; [|split; [done|]].
  - unfold handle_price_request, mbind, M_bind. rewrite Hrun, Hformat.
    by apply reply_text_run.
  - intros name. rewrite <- Hkeys.
    intros ([n [price a]] & -> & Hin)%list_elem_of_fmap_1.
    destruct (format_has_line e snap default_title w1 _ Hin)
      as (text' & before & after & Hformat' & Htext).
    rewrite Hformat in Hformat'. injection Hformat' as ->. rewrite Htext.
    rewrite <- (str_app_assoc before NL).
    apply is_substring_within, price_line_names_pair.
Qed.

(** X16: a price request on an update without a message raises, but only
    after the fetch: the new prices are stored and written although nothing
    is sent. *)
Theorem X16_price_request_without_message e w u :
  upd_message u = None →
  ∃ snap w1,
    get_market_prices e w = (Ok snap, w1)
    ∧ handle_price_request e u w = (Raise (Exn AttributeError "reply_text"), w1).
Proof.
  intros Hm.
  destruct (get_market_prices_run e w) as (snap & w1 & Hrun & _).
  exists snap, w1. split; [done|].
  unfold handle_price_request, mbind, M_bind. rewrite Hrun.
  unfold format_market_message, reply_text. cbn [mret M_ret]. by rewrite Hm.
Qed.

End Bot.

(** ** The statements at sample inputs *)

(** On a first run BTC parses and is recorded flat, with no stored price to
    be equal to: the rule as worded fails there. *)
Lemma C1_first_observation_is_flat :
  ¬ movement_as_stated float_of_no_str e_full w_first "BTC" "bitcoin".
Proof.
  intros (snap & w' & price & ind & Hrun & Hget & _ & _ & [Hflat _] & _).
  assert (match (get_market_prices float_of_no_str e_full w_first).1 with
          | Ok s => snd <$> dict_get s "BTC"
          | Raise _ => None
          end = Some Flat) as Hind by (vm_compute; reflexivity).
  rewrite Hrun in Hind. cbn [fst] in Hind. rewrite Hget in Hind.
  injection Hind as ->.
  destruct (Hflat eq_refl) as (x & o & _ & Hstored & _).
  vm_compute in Hstored. discriminate Hstored.
Qed.

Lemma C1_witness :
  ("BTC", "bitcoin") ∈ TICKERS
  ∧ ∃ snap w' price ind,
      get_market_prices float_of_no_str e_full w_seen = (Ok snap, w')
      ∧ dict_get snap "BTC" = Some (price, ind)
      ∧ (ind = Up ↔ ∃ x o, parsed_price float_of_no_str e_full "bitcoin" = Some x
                            ∧ last_prices w_seen !! "BTC" = Some o
                            ∧ float_ltb o (round2 x) = true)
      ∧ (ind = Down ↔ ∃ x o, parsed_price float_of_no_str e_full "bitcoin" = Some x
                              ∧ last_prices w_seen !! "BTC" = Some o
                              ∧ float_ltb (round2 x) o = true)
      ∧ (ind = Flat ↔ ∃ x, parsed_price float_of_no_str e_full "bitcoin" = Some x
                            ∧ (last_prices w_seen !! "BTC" = None
                               ∨ ∃ o, last_prices w_seen !! "BTC" = Some o
                                      ∧ (float_eqb (round2 x) o = true
                                         ∨ round2 x = S754_nan
                                         ∨ o = S754_nan)))
      ∧ (ind = Unknown ↔ parsed_price float_of_no_str e_full "bitcoin" = None)
      ∧ (last_prices w_seen !! "BTC" = None → ind ≠ Up ∧ ind ≠ Down).
Proof.
  split; [compute_done|].
  apply (C1_movement_indicator float_of_no_str e_full w_seen "BTC" "bitcoin").
  compute_done.
Defined.

Lemma C3_witness :
  ("ETH", "ethereum") ∈ TICKERS
  ∧ parsed_price float_of_no_str e_full "ethereum" = Some (lit 3400129 1000)
  ∧ ∃ snap w' stored,
      get_market_prices float_of_no_str e_full w_seen = (Ok snap, w')
      ∧ last_prices w' !! "ETH" = Some stored
      ∧ stored = round2 (lit 3400129 1000)
      ∧ rounded_to_cents (lit 3400129 1000) stored.
Proof.
  split; [compute_done|]. split; [reflexivity|].
  apply (C3_stored_price_is_rounded float_of_no_str e_full w_seen
           "ETH" "ethereum" (lit 3400129 1000)); [compute_done|reflexivity].
Defined.

Lemma C4_witness :
  (request_failed e_offline ∨ no_price_parses float_of_no_str e_offline)
  ∧ ∃ w',
      get_market_prices float_of_no_str e_offline w_seen
      = (Ok unavailable_snapshot, w')
      ∧ last_prices w' = last_prices w_seen
      ∧ last (stdout w')
        = Some ("Error saving prices.json: Read-only file system").
Proof.
  split; [left; exact I|].
  apply (C4_total_failure float_of_no_str e_offline w_seen). left. exact I.
Defined.

Lemma C5_witness :
  ("ETH", "ethereum") ∈ TICKERS
  ∧ parsed_price float_of_no_str e_without_eth "ethereum" = None
  ∧ (∀ n c, (n, c) ∈ TICKERS → n ≠ "ETH" →
       parsed_price float_of_no_str e_without_eth c
       = parsed_price float_of_no_str e_full c)
  ∧ ∃ snap w1 snap' w1',
      get_market_prices float_of_no_str e_without_eth w_seen = (Ok snap, w1)
      ∧ get_market_prices float_of_no_str e_full w_seen = (Ok snap', w1')
      ∧ dict_get snap "ETH" = Some (None, Unknown)
      ∧ ∀ n c, (n, c) ∈ TICKERS → n ≠ "ETH" →
          is_Some (dict_get snap n) ∧ dict_get snap n = dict_get snap' n.
Proof.
  assert (∀ n c, (n, c) ∈ TICKERS → n ≠ "ETH" →
            parsed_price float_of_no_str e_without_eth c
            = parsed_price float_of_no_str e_full c) as Hothers.
  { intros n c Hin Hne. unfold TICKERS in Hin.
    repeat (apply elem_of_cons in Hin as [[= -> ->]|Hin]);
      first [reflexivity | done | by apply elem_of_nil in Hin]. }
  split; [compute_done|]. split; [reflexivity|]. split; [exact Hothers|].
  apply (C5_partial_failure float_of_no_str e_without_eth e_full w_seen
           "ETH" "ethereum"); [compute_done|reflexivity|exact Hothers].
Defined.

Lemma C10_witness :
  ("ETH", "ethereum") ∈ TICKERS
  ∧ parsed_price float_of_no_str e_without_eth "ethereum" = None
  ∧ ∃ snap w',
      get_market_prices float_of_no_str e_without_eth w_seen = (Ok snap, w')
      ∧ last_prices w' !! "ETH" = last_prices w_seen !! "ETH"
      ∧ ∀ e2 x, parsed_price float_of_no_str e2 "ethereum" = Some x →
          ∃ snap2 w2,
            get_market_prices float_of_no_str e2 w' = (Ok snap2, w2)
            ∧ dict_get snap2 "ETH"
              = Some (Some (round2 x),
                      movement (last_prices w_seen !! "ETH") (round2 x)).
Proof.
  split; [compute_done|]. split; [reflexivity|].
  apply (C10_failed_symbol_keeps_price float_of_no_str e_without_eth w_seen
           "ETH" "ethereum"); [compute_done|reflexivity].
Defined.

(** The sent set is emptied at 00:00, so a clock that is set back past
    midnight makes the loop repeat the 09:00 broadcast of the same date: for
    every run, as the claim has it, the statement on duplicates fails. *)
Lemma C2_clock_set_back :
  ¬ one_broadcast_as_stated float_of_no_str sample_group clock_set_back w_first.
Proof.
  intros (r & st' & Hrun & Hnodup).
  assert (sent_log
            (schedule_updates float_of_no_str sample_group clock_set_back
               (sched_init w_first)).2
          = [(day1, 9, 0); (day1, 9, 0)]%N) as Hlog
    by (vm_compute; reflexivity).
  rewrite Hrun in Hlog. cbn [snd] in Hlog. rewrite Hlog in Hnodup.
  apply NoDup_cons in Hnodup as [Hfresh _]. apply Hfresh. left.
Qed.

Lemma C2_witness :
  chronological two_days
  ∧ ∃ r st' msgs,
      schedule_updates float_of_no_str sample_group two_days (sched_init w_first)
      = (r, st')
      ∧ NoDup (sent_log st')
      ∧ outbox (sched_world st') = (outbox w_first ++ msgs)%list
      ∧ length (sent_log st') = (length msgs + raised r)%nat
      ∧ (r = Ok tt →
         ∀ t, t ∈ two_days →
           (hour (tick_now t), minute (tick_now t)) ∈ target_times →
           key_of (tick_now t) ∈ sent_log st').
Proof.
  assert (chronological two_days) as Hchron.
  { cbv [two_days before_nine app chronological].
    repeat split; repeat (first [apply Forall_nil_2 | apply Forall_cons; split]);
      by vm_compute. }
  split; [exact Hchron|].
  apply (C2_one_broadcast_per_target_per_day float_of_no_str sample_group
           two_days w_first Hchron).
Defined.


Lemma C6_witness :
  upd_message deposit_question = Some (Message 5 (Some "How do I deposit funds"))
  ∧ msg_text (Message 5 (Some "How do I deposit funds"))
    = Some "How do I deposit funds"
  ∧ "How do I deposit funds" ≠ ""
  ∧ (is_substring "price" (lower_ascii "How do I deposit funds")
     ∨ starts_with (lower_ascii "How do I deposit funds") "/price" →
     auto_reply float_of_no_str lower_ascii e_full deposit_question w_first
     = handle_price_request float_of_no_str e_full deposit_question w_first
     ∧ ∃ snap w1 reply,
         get_market_prices float_of_no_str e_full w_first = (Ok snap, w1)
         ∧ format_market_message e_full snap default_title w1 = (Ok reply, w1)
         ∧ sends e_full (Outgoing 5 reply None) w1
             (auto_reply float_of_no_str lower_ascii e_full deposit_question
                w_first))
  ∧ (¬ is_substring "price" (lower_ascii "How do I deposit funds") →
     (∃ keyword reply,
        first_match (responses w_first)
          (lower_ascii "How do I deposit funds") keyword reply
        ∧ sends e_full (Outgoing 5 reply None) w_first
            (auto_reply float_of_no_str lower_ascii e_full deposit_question
               w_first))
     ∨ (no_match (responses w_first) (lower_ascii "How do I deposit funds")
        ∧ auto_reply float_of_no_str lower_ascii e_full deposit_question w_first
          = (Ok tt, w_first))).
Proof.
  split; [reflexivity|]. split; [reflexivity|]. split; [discriminate|].
  apply (C6_auto_reply float_of_no_str lower_ascii e_full w_first
           deposit_question (Message 5 (Some "How do I deposit funds"))
           "How do I deposit funds"); [reflexivity|reflexivity|discriminate].
Defined.

Lemma C7_witness :
  has_value (lit 650005 10) 65000.5
  ∧ ("BTC", (Some (lit 650005 10), Up)) ∈ btc_snapshot
  ∧ (∃ text before after,
       format_market_message e_full btc_snapshot default_title w_first
       = (Ok text, w_first)
       ∧ text = before ++ NL ++ "💰 BTC/USD: $65,000.50" ++ arrow_glyph Up
                ++ NL ++ after)
  ∧ (clock e_offline = clock e_full →
     format_market_message e_offline btc_snapshot default_title w_seen
     = ((format_market_message e_full btc_snapshot default_title w_first).1,
        w_seen)).
Proof.
  split; [by vm_compute|]. split; [apply list_elem_of_here|].
  apply (C7_format_btc_line e_full e_offline w_first w_seen default_title
           btc_snapshot (lit 650005 10) Up);
    [by vm_compute|apply list_elem_of_here].
Defined.

(** ** The examples of the specification, run *)

Example deposit_question_replied :
  outbox (auto_reply float_of_no_str lower_ascii e_full deposit_question w_first).2
  = [Outgoing 5 "How to deposit..." None].
Proof. vm_compute. reflexivity. Qed.

Example welcome_as_text_ignored :
  auto_reply float_of_no_str lower_ascii e_full welcome_as_text w_first
  = (Ok tt, w_first).
Proof. vm_compute. reflexivity. Qed.

Example fetch_then_format :
  (get_market_prices float_of_no_str e_full w_seen).1
  = Ok [("BTC", (Some (lit 6500050 100), Up));
        ("ETH", (Some (lit 340013 100), Down));
        ("BNB", (Some (lit 59000 100), Flat));
        ("SOL", (Some (lit 15025 100), Flat));
        ("XAU", (Some (lit 230025 100), Flat))].
Proof. vm_compute. reflexivity. Qed.

(** Rounding works on the binary value of the quote: the floats of 2.675 and
    150.255 lie below the tie and go down, 0.125 is a tie and goes to the
    even neighbour, and a small negative quote gives the negative zero. *)
Example rounding_of_binary_values :
  round2 (lit 2675 1000) = lit 267 100
  ∧ round2 (lit 150255 1000) = lit 15025 100
  ∧ round2 (lit 125 1000) = lit 12 100
  ∧ round2 (lit (-1) 1000) = S754_zero true
  ∧ format_price (S754_zero true) = "-0.00".
Proof. repeat split; vm_compute; reflexivity. Qed.

(** A NaN quote is stored and recorded flat although a price was stored for
    the symbol; an integer too large for a float is recorded unknown. *)
Example nan_and_overflow :
  (get_market_prices float_of_no_str e_odd w_seen).1
  = Ok [("BTC", (Some S754_nan, Flat));
        ("ETH", (None, Unknown));
        ("BNB", (None, Unknown));
        ("SOL", (None, Unknown));
        ("XAU", (None, Unknown))].
Proof. vm_compute. reflexivity. Qed.

Example restricted_to_member_not_welcomed :
  welcome sample_mention e_full
    (Update None (Some (ChatMemberUpdated 5 restricted member (User 1 "Ann"))))
    w_first
  = (Ok tt, w_first).
Proof. vm_compute. reflexivity. Qed.

Example member_to_left_not_welcomed :
  welcome sample_mention e_full
    (Update None (Some (ChatMemberUpdated 5 member left (User 1 "Ann"))))
    w_first
  = (Ok tt, w_first).
Proof. vm_compute. reflexivity. Qed.

Example kicked_to_member_welcomed :
  outbox (welcome sample_mention e_full
            (Update None (Some (ChatMemberUpdated 5 kicked member (User 1 "Ann"))))
            (World ∅ [] (FileJson ∅) [] [])).2
  = [Outgoing 5 "👋 Welcome @Ann!" (Some "HTML")].
Proof. vm_compute. reflexivity. Qed.

Example two_days_log :
  sent_log (schedule_updates float_of_no_str sample_group two_days
              (sched_init w_first)).2
  = [(day1, 9, 0); (day1, 12, 0); (day2, 9, 0)]%N.
Proof. vm_compute. reflexivity. Qed.

(** A broadcast the chat platform refuses ends the loop with the exception
    of the platform: the call is logged, nothing is sent, then or later. *)
Example refused_broadcast_ends_loop :
  (schedule_updates float_of_no_str sample_group refused_at_nine
     (sched_init w_first)).1
  = Raise (Exn TelegramError "Timed out")
  ∧ sent_log (schedule_updates float_of_no_str sample_group refused_at_nine
                (sched_init w_first)).2
    = [(day1, 9, 0)]%N
  ∧ outbox (sched_world
              (schedule_updates float_of_no_str sample_group refused_at_nine
                 (sched_init w_first)).2)
    = [].
Proof. repeat split; vm_compute; reflexivity. Qed.

(** ** The further properties at sample inputs *)

Lemma ascii_lower_not_upper a : is_upper (ascii_lower a) = false.
Proof. by destruct a as [[] [] [] [] [] [] [] []]. Qed.

Lemma lower_ascii_no_upper s c :
  c ∈ list_ascii_of_string (lower_ascii s) → is_upper c = false.
Proof.
  induction s as [|a s IH]; simpl.
  - intros Hc. by apply elem_of_nil in Hc.
  - intros [-> | Hc]%elem_of_cons; [apply ascii_lower_not_upper|by apply IH].
Qed.

Lemma X4_witness :
  disk e_full = WriteOk
  ∧ ∃ snap w',
      get_market_prices float_of_no_str e_full w_seen = (Ok snap, w')
      ∧ load_last_prices (on_disk (prices_file w')) = Ok (last_prices w').
Proof.
  split; [reflexivity|].
  apply (X4_saved_prices_load_back float_of_no_str e_full w_seen). reflexivity.
Defined.

Lemma X5_witness :
  disk e_offline ≠ WriteOk
  ∧ ∃ snap w',
      get_market_prices float_of_no_str e_offline w_seen = (Ok snap, w')
      ∧ load_last_prices (on_disk (prices_file w'))
        = load_last_prices (on_disk (prices_file w_seen)).
Proof.
  split; [discriminate|].
  apply (X5_failed_write_leaves_file_behind float_of_no_str e_offline w_seen).
  discriminate.
Defined.

Lemma X9_witness :
  ((hour (tick_now (at_time day2 0 0 20)),
    minute (tick_now (at_time day2 0 0 20))) ∉ target_times)
  ∧ ∃ st',
      tick_body float_of_no_str sample_group (at_time day2 0 0 20)
        (SchedState {[ (day1, 9%N, 0%N) ]} [(day1, 9%N, 0%N)] w_seen)
      = (Ok tt, st')
      ∧ sched_world st' = w_seen
      ∧ sent_log st' = [(day1, 9%N, 0%N)]
      ∧ sent_today st' = ∅.
Proof.
  split; [compute_done|].
  apply (X9_idle_iteration float_of_no_str sample_group (at_time day2 0 0 20)
           (SchedState {[ (day1, 9%N, 0%N) ]} [(day1, 9%N, 0%N)] w_seen)).
  compute_done.
Defined.

Lemma X11_witness :
  (∀ s c, c ∈ list_ascii_of_string (lower_ascii s) → is_upper c = false)
  ∧ upd_message withdraw_question = Some (Message 5 (Some "How to WITHDRAW?"))
  ∧ msg_text (Message 5 (Some "How to WITHDRAW?")) = Some "How to WITHDRAW?"
  ∧ "How to WITHDRAW?" ≠ ""
  ∧ ¬ is_substring "price" (lower_ascii "How to WITHDRAW?")
  ∧ ((∃ keyword reply,
        (keyword, reply) ∈ responses (set_responses new_table w_first)
        ∧ (∀ c, c ∈ list_ascii_of_string keyword → is_upper c = false)
        ∧ sends e_full (Outgoing 5 reply None) (set_responses new_table w_first)
            (auto_reply float_of_no_str lower_ascii e_full withdraw_question
               (set_responses new_table w_first)))
     ∨ auto_reply float_of_no_str lower_ascii e_full withdraw_question
         (set_responses new_table w_first)
       = (Ok tt, set_responses new_table w_first)).
Proof.
  assert (¬ is_substring "price" (lower_ascii "How to WITHDRAW?")) as Hnot
    by (apply contains_false; reflexivity).
  split; [exact lower_ascii_no_upper|]. split; [reflexivity|].
  split; [reflexivity|]. split; [discriminate|]. split; [exact Hnot|].
  apply (X11_keys_with_capitals_never_match float_of_no_str lower_ascii e_full
           (set_responses new_table w_first) withdraw_question
           (Message 5 (Some "How to WITHDRAW?")) "How to WITHDRAW?");
    [exact lower_ascii_no_upper|reflexivity|reflexivity|discriminate|exact Hnot].
Defined.

Lemma X12_witness :
  (old_status ann_joins = left ∨ old_status ann_joins = kicked)
  ∧ new_status ann_joins = member
  ∧ ∃ text,
      sends e_full (Outgoing (cm_chat ann_joins) text (Some "HTML")) w_first
        (welcome sample_mention e_full (Update None (Some ann_joins)) w_first)
      ∧ (is_substring "{name}" (welcome_template w_first) →
         is_substring (sample_mention (new_user ann_joins)) text)
      ∧ (¬ is_substring "{name}" (welcome_template w_first) →
         text = welcome_template w_first).
Proof.
  split; [by left|]. split; [reflexivity|].
  apply (X12_welcome_holds_mention sample_mention e_full None ann_joins w_first);
    [by left|reflexivity].
Defined.

Lemma X13_witness :
  upd_message reload_command = Some (Message 5 (Some "/reload"))
  ∧ upd_message withdraw_question = Some (Message 5 (Some "How to WITHDRAW?"))
  ∧ msg_text (Message 5 (Some "How to WITHDRAW?")) = Some "How to WITHDRAW?"
  ∧ "How to WITHDRAW?" ≠ ""
  ∧ ¬ is_substring "price" (lower_ascii "How to WITHDRAW?")
  ∧ ∃ r w1,
      reload_responses (Holds new_table) e_refused reload_command w_first
      = (r, w1)
      ∧ responses w1 = new_table
      ∧ last_prices w1 = last_prices w_first
      ∧ sends e_refused
          (Outgoing 5
             (default "Reloaded!" (dict_get new_table "_reload_success")) None)
          (set_responses new_table w_first) (r, w1)
      ∧ outbox w1
        = (outbox w_first
           ++ if r is Ok _
              then [Outgoing 5
                      (default "Reloaded!"
                         (dict_get new_table "_reload_success"))
                      None]
              else [])%list
      ∧ ((∃ keyword reply,
            first_match new_table (lower_ascii "How to WITHDRAW?") keyword reply
            ∧ sends e_full (Outgoing 5 reply None) w1
                (auto_reply float_of_no_str lower_ascii e_full
                   withdraw_question w1))
         ∨ (no_match new_table (lower_ascii "How to WITHDRAW?")
            ∧ auto_reply float_of_no_str lower_ascii e_full withdraw_question w1
              = (Ok tt, w1))).
Proof.
  assert (¬ is_substring "price" (lower_ascii "How to WITHDRAW?")) as Hnot
    by (apply contains_false; reflexivity).
  split; [reflexivity|]. split; [reflexivity|]. split; [reflexivity|].
  split; [discriminate|]. split; [exact Hnot|].
  apply (X13_reload_then_reply float_of_no_str lower_ascii new_table e_refused
           e_full w_first reload_command (Message 5 (Some "/reload"))
           withdraw_question (Message 5 (Some "How to WITHDRAW?"))
           "How to WITHDRAW?");
    [reflexivity|reflexivity|reflexivity|discriminate|exact Hnot].
Defined.

Lemma X14_witness :
  upd_message reload_command = Some (Message 5 (Some "/reload"))
  ∧ upd_message withdraw_question = Some (Message 5 (Some "How to WITHDRAW?"))
  ∧ msg_text (Message 5 (Some "How to WITHDRAW?")) = Some "How to WITHDRAW?"
  ∧ "How to WITHDRAW?" ≠ ""
  ∧ ¬ is_substring "price" (lower_ascii "How to WITHDRAW?")
  ∧ reload_responses Garbled e_full reload_command w_first
    = (Raise (Exn JSONDecodeError "Expecting value"), w_first)
  ∧ reload_responses (Unreadable (Exn OSError "Permission denied"))
      e_full reload_command w_first
    = (Raise (Exn OSError "Permission denied"), w_first)
  ∧ ∃ r w1,
      reload_responses Absent e_full reload_command w_first = (r, w1)
      ∧ responses w1 = []
      ∧ sends e_full (Outgoing 5 "Reloaded!" None) (set_responses [] w_first)
          (r, w1)
      ∧ outbox w1
        = (outbox w_first
           ++ if r is Ok _ then [Outgoing 5 "Reloaded!" None] else [])%list
      ∧ auto_reply float_of_no_str lower_ascii e_full withdraw_question w1
        = (Ok tt, w1).
Proof.
  assert (¬ is_substring "price" (lower_ascii "How to WITHDRAW?")) as Hnot
    by (apply contains_false; reflexivity).
  split; [reflexivity|]. split; [reflexivity|]. split; [reflexivity|].
  split; [discriminate|]. split; [exact Hnot|].
  apply (X14_reload_without_table float_of_no_str lower_ascii e_full e_full
           w_first reload_command (Message 5 (Some "/reload"))
           withdraw_question (Message 5 (Some "How to WITHDRAW?"))
           "How to WITHDRAW?" (Exn OSError "Permission denied"));
    [reflexivity|reflexivity|reflexivity|discriminate|exact Hnot].
Defined.

Example reload_then_withdraw :
  outbox (auto_reply float_of_no_str lower_ascii e_full withdraw_question
            (reload_responses (Holds new_table) e_full reload_command
               w_first).2).2
  = [Outgoing 5 "Table reloaded" None; Outgoing 5 "Withdrawal guide" None].
Proof. vm_compute. reflexivity. Qed.

(** When the confirmation of a reload is refused, the handler raises but the
    new table is in place. *)
Example refused_reload_still_reloads :
  reload_responses (Holds new_table) e_refused reload_command w_first
  = (Raise (Exn TelegramError "Timed out"), set_responses new_table w_first).
Proof. vm_compute. reflexivity. Qed.

Lemma X15_witness :
  upd_message deposit_question = Some (Message 5 (Some "How do I deposit funds"))
  ∧ ∃ snap w1 text,
      get_market_prices float_of_no_str e_without_eth w_seen = (Ok snap, w1)
      ∧ sends e_without_eth (Outgoing 5 text None) w1
          (handle_price_request float_of_no_str e_without_eth deposit_question
             w_seen)
      ∧ starts_with text (default_title ++ " (")
      ∧ ∀ name, name ∈ TICKERS.*1 → is_substring (" " ++ name ++ "/USD: ") text.
Proof.
  split; [reflexivity|].
  apply (X15_price_request_reply float_of_no_str e_without_eth w_seen
           deposit_question (Message 5 (Some "How do I deposit funds"))).
  reflexivity.
Defined.

Lemma X16_witness :
  upd_message (Update None None) = None
  ∧ ∃ snap w1,
      get_market_prices float_of_no_str e_full w_seen = (Ok snap, w1)
      ∧ handle_price_request float_of_no_str e_full (Update None None) w_seen
        = (Raise (Exn AttributeError "reply_text"), w1).
Proof.
  split; [reflexivity|].
  apply (X16_price_request_without_message float_of_no_str e_full w_seen
           (Update None None)). reflexivity.
Defined.
